(** * ChatDev orchestration: [chatdev/chat_env.py] and [chatdev/chat_chain.py]

    A shallow embedding of the build validator ([ChatEnv.exist_bugs]), the
    missing-module remediation ([ChatEnv.fix_module_not_found_error]), the
    directory binding ([ChatEnv.set_directory]), recruitment, the chain
    dispatcher ([ChatChain.execute_step], [ChatChain.execute_chain]) and the
    task-prompt parser of [ChatChain.self_task_improve].

    Conventions.
    - A Python [str] is a [string]; a character is a code point below 256
      (ASCII with the Latin-1 supplement), so that [str.lower], [str.strip]
      and the regular-expression class [\S] have their Python meaning on
      every character the model can hold.
    - Effects on the outside world (child processes, the log, the file
      system) are recorded as a list of [action]s in program order.
    - Calls that can raise return [result]; what the outside world answers
      (the child's fate, the assistant's reply) is an explicit argument. *)

From stdpp Require Import base strings list gmap pretty.
From Stdlib Require Import Ascii ZArith Lia.

Local Open Scope string_scope.
Local Open Scope list_scope.

(** ** Python string primitives *)
Module PyStr.

(** Line feed, as written ["\n"] in the source. *)
Definition nl : string := String (ascii_of_nat 10) "".

(** [ch.isspace()] / the class [\s] of [re] on [str] patterns, restricted to
    code points below 256: TAB..CR, FS..US, SPACE, NEL and NBSP. *)
Definition is_space (c : ascii) : bool :=
  let n := nat_of_ascii c in
  ((9 <=? n)%nat && (n <=? 13)%nat) || ((28 <=? n)%nat && (n <=? 32)%nat)
  || (n =? 133)%nat || (n =? 160)%nat.

(** [ch.lower()] below 256: [A-Z] and the Latin-1 capitals (all of
    0xC0..0xDE but the multiplication sign 0xD7) move up by 32. *)
Definition lower_char (c : ascii) : ascii :=
  let n := nat_of_ascii c in
  if ((65 <=? n)%nat && (n <=? 90)%nat)
     || ((192 <=? n)%nat && (n <=? 222)%nat && negb (n =? 215)%nat)
  then ascii_of_nat (n + 32) else c.

(** [s.lower()] *)
Fixpoint lower (s : string) : string :=
  match s with
  | "" => ""
  | String c s' => String (lower_char c) (lower s')
  end.

(** [s.startswith(p)] *)
Fixpoint startswith (p s : string) : bool :=
  match p, s with
  | "", _ => true
  | String _ _, "" => false
  | String a p', String b s' => Ascii.eqb a b && startswith p' s'
  end.

(** [needle in s] *)
Fixpoint contains (needle s : string) : bool :=
  startswith needle s ||
  match s with
  | "" => false
  | String _ s' => contains needle s'
  end.

(** [s[n:]] *)
Fixpoint drop (n : nat) (s : string) : string :=
  match n, s with
  | 0, _ => s
  | S _, "" => ""
  | S n', String _ s' => drop n' s'
  end.

(** [s[:n]] *)
Fixpoint take (n : nat) (s : string) : string :=
  match n, s with
  | 0, _ => ""
  | S _, "" => ""
  | S n', String c s' => String c (take n' s')
  end.

(** [s.lstrip()], [s.rstrip()] and [s.strip()] with no argument. *)
Fixpoint lstrip (s : string) : string :=
  match s with
  | "" => ""
  | String c s' => if is_space c then lstrip s' else s
  end.

Fixpoint rstrip (s : string) : string :=
  match s with
  | "" => ""
  | String c s' =>
      match rstrip s' with
      | "" => if is_space c then "" else String c ""
      | r => String c r
      end
  end.

Definition strip (s : string) : string := rstrip (lstrip s).

(** [s.replace(old, new)]: occurrences of [old] are found left to right and
    do not overlap. [skip] counts the characters of the occurrence just
    replaced that are still to be passed over. With [old] empty Python puts
    [new] before every character and at the end. *)
Fixpoint replace_from (old new : string) (skip : nat) (s : string) : string :=
  match s with
  | "" => match skip, old with 0, "" => new | _, _ => "" end
  | String c s' =>
      match skip with
      | S k => replace_from old new k s'
      | 0 =>
          if startswith old s
          then new +:+ (match old with
                        | "" => String c (replace_from old new 0 s')
                        | String _ o' => replace_from old new (String.length o') s'
                        end)
          else String c (replace_from old new 0 s')
      end
  end.

Definition replace (old new s : string) : string := replace_from old new 0 s.

(** [s.split(sep)] for a non-empty [sep], as its first piece and the rest. *)
Fixpoint split_from (sep : string) (skip : nat) (s : string) : string * list string :=
  match s with
  | "" => ("", [])
  | String c s' =>
      match skip with
      | S k => split_from sep k s'
      | 0 =>
          if startswith sep s
          then ("", let '(p, ps) := split_from sep (String.length sep - 1) s' in p :: ps)
          else let '(p, ps) := split_from sep 0 s' in (String c p, ps)
      end
  end.

Definition split (sep s : string) : list string :=
  let '(p, ps) := split_from sep 0 s in p :: ps.

(** [l[-1]] on a list that [split] returned, which is never empty. *)
Definition last_piece (l : list string) : string := List.last l "".

End PyStr.

(** ** The pattern [No module named '(\S+)'] *)
Module ModulePattern.
Import PyStr.

Definition literal : string := "No module named '".
Definition quote : ascii := "'"%char.

(** The longest prefix of non-blank characters: what the greedy [\S+]
    takes first. *)
Fixpoint non_space_run (s : string) : string :=
  match s with
  | "" => ""
  | String c s' => if is_space c then "" else String c (non_space_run s')
  end.

(** Backtracking of [\S+] before the closing quote: the greatest [k] with
    [run[k]] a quote, counted from [i], the index of the first character of
    [run]. The group must keep one character, so index 0 is never taken. *)
Fixpoint last_quote (i : nat) (run : string) : option nat :=
  match run with
  | "" => None
  | String c run' =>
      match last_quote (S i) run' with
      | Some k => Some k
      | None => if Ascii.eqb c quote && negb (i =? 0)%nat then Some i else None
      end
  end.

(** A match anchored at the head of [s]: group 1 and the length matched. *)
Definition match_here (s : string) : option (string * nat) :=
  if startswith literal s then
    let run := non_space_run (drop (String.length literal) s) in
    match last_quote 0 run with
    | Some k => Some (take k run, String.length literal + k + 1)
    | None => None
    end
  else None.

(** [[m.group(1) for m in re.finditer(pattern, s, re.DOTALL)]]: matches are
    sought left to right and the search resumes where the last one ended. *)
Fixpoint finditer_from (skip : nat) (s : string) : list string :=
  match s with
  | "" => []
  | String _ s' =>
      match skip with
      | S k => finditer_from k s'
      | 0 =>
          match match_here s with
          | Some (g, len) => g :: finditer_from (len - 1) s'
          | None => finditer_from 0 s'
          end
      end
  end.

Definition finditer (s : string) : list string := finditer_from 0 s.

End ModulePattern.

(** ** Effects *)

(** What the program does to the outside world, in program order. *)
Inductive action : Type :=
  | Shell (command : string)            (* [subprocess.Popen(command, shell=True).wait()] *)
  | Log (message : string)              (* [log_and_print_online(message)] *)
  | LogAs (role message : string)       (* [log_and_print_online(role, message)] *)
  | Print (message : string)            (* [print(message)] *)
  | Spawn (command : string)            (* [subprocess.Popen(..., preexec_fn=os.setsid, ...)] *)
  | Sleep (seconds : nat)               (* [time.sleep(seconds)] *)
  | Killpg                              (* [os.killpg(os.getpgid(process.pid), SIGTERM)] *)
  | Copytree (src dst : string)         (* [shutil.copytree(src, dst)] *)
  | Rmtree (path : string)              (* [shutil.rmtree(path)] *)
  | Mkdir (path : string).              (* [os.mkdir(path)] *)

#[global] Instance action_eq_dec : EqDecision action.
Proof. solve_decision. Defined.

(** ** [ChatEnv.fix_module_not_found_error] *)
Module Remediation.
Import PyStr ModulePattern.

Definition pip_install (module : string) : string := "pip install " +:+ module.

Definition cmd_execute (module : string) : string :=
  "**[CMD Execute]**" +:+ nl +:+ nl +:+ "[CMD] pip install " +:+ module.

(** The body of the [for] loop, for one match. *)
Definition install_one (module : string) : list action :=
  [Shell (pip_install module); Log (cmd_execute module)].

Definition fix_module_not_found_error (test_reports : string) : list action :=
  if contains "ModuleNotFoundError" test_reports
  then flat_map install_one (finditer test_reports)
  else [].

(** The modules whose installation was attempted, one entry per attempt. *)
Fixpoint pip_installs (acts : list action) : list string :=
  match acts with
  | [] => []
  | Shell cmd :: acts' =>
      if startswith "pip install " cmd
      then drop 12 cmd :: pip_installs acts'
      else pip_installs acts'
  | _ :: acts' => pip_installs acts'
  end.

End Remediation.

(** ** Exceptions and effectful results *)

(** The exceptions that occur, each with what [str(e)] needs. [Exception]
    stands for every other subclass of Python's [Exception] ([OSError],
    [UnicodeDecodeError], [TypeError], ...) with its text. *)
Inductive exn : Type :=
  | AssertionError
  | KeyError (key : string)
  | AttributeError (message : string)
  | RuntimeError (message : string)
  | CalledProcessError (message : string)
  | Exception (message : string).

#[global] Instance exn_eq_dec : EqDecision exn.
Proof. solve_decision. Defined.

(** [str(e)], as the f-strings of [exist_bugs] format it. *)
Definition str_exn (e : exn) : string :=
  match e with
  | AssertionError => ""
  | KeyError k => "'" +:+ k +:+ "'"
  | AttributeError m | RuntimeError m | CalledProcessError m | Exception m => m
  end.

(** [type(e) is RuntimeError]: the exception was made by
    [raise RuntimeError(...)], which is all that a handler can learn from
    the class of the exceptions that [execute_step] raises itself. *)
Definition is_RuntimeError (e : exn) : bool :=
  match e with
  | RuntimeError _ => true
  | _ => false
  end.

Inductive result (A : Type) : Type :=
  | Ok (a : A)
  | Raise (e : exn).
Arguments Ok {A} a.
Arguments Raise {A} e.

(** A computation: the actions it performed, then its value or the
    exception that ended it. *)
Definition eff (A : Type) : Type := list action * result A.

#[global] Instance eff_ret : MRet eff := λ A a, ([], Ok a).
#[global] Instance eff_bind : MBind eff := λ A B f m,
  match m with
  | (acts, Ok a) => let '(acts', r) := f a in (acts ++ acts', r)
  | (acts, Raise e) => (acts, Raise e)
  end.

Definition raise {A : Type} (e : exn) : eff A := ([], Raise e).
Definition perform (a : action) : eff unit := ([a], Ok tt).

(** [d[key]] on a dictionary read from JSON: [KeyError] when absent. *)
Definition getitem {A : Type} (key : string) (field : option A) : eff A :=
  match field with
  | Some v => mret v
  | None => raise (KeyError key)
  end.

(** ** [ChatEnv] *)

Record ChatEnvConfig : Type := {
  clear_structure : bool;
  brainstorming : bool;
  gui_design : bool;
  git_management : bool
}.

(** [ChatEnv.env_dict]. [__init__] creates the dictionary with these eight
    keys, each an empty string, and nothing removes a key, so the lookup of
    one of them is a field access. *)
Record EnvDict : Type := {
  directory : string;
  task_prompt : string;
  modality : string;
  ideas : string;
  language : string;
  review_comments : string;
  error_summary : string;
  test_reports : string
}.

(** Modelled from the spec: the class [Roster] of chatdev/roster.py, which is
    not among the sources. The spec calls it the "set of recruited
    participant names", so the agents are a finite set of names. *)
Definition Roster : Type := gset string.

(** [Codes] and [Documents] are outside these sources as well; of each only
    the [directory] attribute that [set_directory] assigns is kept. *)
Record ChatEnv : Type := {
  config : ChatEnvConfig;
  roster : Roster;
  codes_directory : option string;
  requirements_directory : option string;
  manuals_directory : option string;
  proposed_images : gmap string string;
  incorporated_images : gmap string string;
  env_dict : EnvDict
}.

Module Env.
Import PyStr.

(** [ChatEnv.__init__] *)
Definition init (chat_env_config : ChatEnvConfig) : ChatEnv := {|
  config := chat_env_config;
  roster := ∅;
  codes_directory := None;
  requirements_directory := None;
  manuals_directory := None;
  proposed_images := ∅;
  incorporated_images := ∅;
  env_dict := {| directory := ""; task_prompt := ""; modality := "";
                 ideas := ""; language := ""; review_comments := "";
                 error_summary := ""; test_reports := "" |}
|}.

(** What the file system and the clock answer during [set_directory]. *)
Record fs : Type := {
  path_exists : string → bool;          (* [os.path.exists] *)
  listdir : string → list string;       (* [os.listdir] *)
  localtime : string                    (* [time.strftime("%Y%m%d%H%M%S", time.localtime())] *)
}.

(** The four assignments that follow the assertion in [set_directory]. *)
Definition bind_directory (self : ChatEnv) (d : string) : ChatEnv := {|
  config := config self;
  roster := roster self;
  codes_directory := Some d;
  requirements_directory := Some d;
  manuals_directory := Some d;
  proposed_images := proposed_images self;
  incorporated_images := incorporated_images self;
  env_dict := {| directory := d;
                 task_prompt := task_prompt (env_dict self);
                 modality := modality (env_dict self);
                 ideas := ideas (env_dict self);
                 language := language (env_dict self);
                 review_comments := review_comments (env_dict self);
                 error_summary := error_summary (env_dict self);
                 test_reports := test_reports (env_dict self) |}
|}.

(** [ChatEnv.set_directory]: the environment it leaves, and what it did.
    Assertions are enabled (no [-O]); the file-system calls succeed. *)
Definition set_directory (self : ChatEnv) (d : string) (w : fs) : ChatEnv * eff unit :=
  if negb (String.length (directory (env_dict self)) =? 0)%nat
  then (self, raise AssertionError)
  else
    let self' := bind_directory self d in
    let here := directory (env_dict self') in
    let backup :=
      if path_exists w here && (0 <? length (listdir w d))%nat
      then
        let new_directory := d +:+ "." +:+ localtime w in
        [Copytree d new_directory; Print (d +:+ " Copied to " +:+ new_directory)]
      else [] in
    let clear :=
      if clear_structure (config self')
      then if path_exists w here
           then [Rmtree here; Mkdir here; Print (d +:+ " Created")]
           else [Mkdir here]
      else [] in
    (self', (backup ++ clear, Ok tt)).

(** Modelled from the spec: [Roster._recruit] of chatdev/roster.py, which is
    not among the sources: "recruiting an already-present name is a no-op
    with a fail-soft 'already exists' notice, not an error"; a new name is
    added to the set. *)
Definition _recruit (agents : Roster) (agent_name : string) : Roster * eff unit :=
  if decide (agent_name ∈ agents)
  then (agents, perform (Print (agent_name +:+ " already exists")))
  else ({[agent_name]} ∪ agents, mret tt).

Definition with_roster (self : ChatEnv) (r : Roster) : ChatEnv := {|
  config := config self;
  roster := r;
  codes_directory := codes_directory self;
  requirements_directory := requirements_directory self;
  manuals_directory := manuals_directory self;
  proposed_images := proposed_images self;
  incorporated_images := incorporated_images self;
  env_dict := env_dict self
|}.

(** [ChatEnv.recruit] *)
Definition recruit (self : ChatEnv) (agent_name : string) : ChatEnv * eff unit :=
  let '(r, e) := _recruit (roster self) agent_name in (with_roster self r, e).

End Env.

(** ** [ChatEnv.exist_bugs] *)
Module BuildValidator.
Import PyStr.

(** The [subprocess.Popen] object: [returncode] is [None] when the object is
    created and stays so until [poll] (or [wait]) stores the exit status. *)
Record Popen : Type := {
  args : string;
  returncode : option Z
}.

(** What the operating system does with the child. *)
Record child : Type := {
  spawn_raises : option exn;      (* [Popen(...)] raises *)
  exit_status : option Z;         (* after the sleep: [None] while still running *)
  kill_raises : option exn;       (* [os.getpgid] / [os.killpg] raises *)
  stderr_read : result string     (* [process.stderr.read().decode("utf-8")] *)
}.

Definition success_info : string := "The software run successfully without errors.".

(** [subprocess.Popen(command, shell=True, preexec_fn=os.setsid, ...)] *)
Definition spawn (w : child) (command : string) : eff Popen :=
  match spawn_raises w with
  | Some e => raise e
  | None => perform (Spawn command);; mret {| args := command; returncode := None |}
  end.

(** [process.poll()]: stores the status in the object and returns it. *)
Definition poll (w : child) (process : Popen) : Popen * option Z :=
  ({| args := args process; returncode := exit_status w |}, exit_status w).

(** [os.killpg(os.getpgid(process.pid), signal.SIGTERM)] *)
Definition killpg (w : child) : eff unit :=
  match kill_raises w with
  | Some e => raise e
  | None => perform Killpg
  end.

(** [process.stderr.read().decode("utf-8")] *)
Definition read_stderr (w : child) : eff string :=
  match stderr_read w with
  | Ok s => mret s
  | Raise e => raise e
  end.

(** The [if return_code == 0: ... else: ...] statement. [Some v] is a
    [return v]; [None] is control leaving the statement without a return. *)
Definition classify (d : string) (return_code : option Z) (w : child)
  : eff (option (bool * string)) :=
  if decide (return_code = Some 0%Z)
  then mret (Some (false, success_info))
  else
    error_output ← read_stderr w;
    if negb (String.eqb error_output "")
    then
      if contains (lower "Traceback") (lower error_output)
      then mret (Some (true, replace (d +:+ "/") "" error_output))
      else mret None
    else mret (Some (false, success_info)).

(** ["cd {}; ls -l; python3 main.py;".format(directory)] *)
Definition command_of (d : string) : string :=
  "cd " +:+ d +:+ "; ls -l; python3 main.py;".

(** The body of the [try]. *)
Definition exist_bugs_try (d : string) (w : child) : eff (option (bool * string)) :=
  let command := command_of d in
  process ← spawn w command;
  perform (Sleep 3);;
  let return_code := returncode process in
  let '(process, polled) := poll w process in
  (if decide (polled = None) then killpg w else mret tt);;
  classify d return_code w.

(** The two [except] clauses, and the [return] after the [try] statement
    for a body that ended without returning. *)
Definition handlers (body : eff (option (bool * string))) : eff (bool * string) :=
  match body with
  | (acts, Ok (Some v)) => (acts, Ok v)
  | (acts, Ok None) => (acts, Ok (false, success_info))
  | (acts, Raise (CalledProcessError m)) =>
      (acts, Ok (true, "Error: " +:+ str_exn (CalledProcessError m)))
  | (acts, Raise ex) => (acts, Ok (true, "An error occurred: " +:+ str_exn ex))
  end.

(** [ChatEnv.exist_bugs] *)
Definition exist_bugs (self : ChatEnv) (w : child) : eff (bool * string) :=
  let d := directory (env_dict self) in
  handlers (exist_bugs_try d w).

End BuildValidator.

(** ** [ChatChain] *)
Module Chain.
Import PyStr.

(** [check_bool] *)
Definition check_bool (s : string) : bool := String.eqb (lower s) "true".

(** An entry of ["chain"] in ChatChainConfig.json, a JSON object: a field is
    [None] when the object has no such key. *)
#[warnings="-register-all"] Inductive phase_item : Type := PhaseItem {
  phase : option string;
  phaseType : option string;
  max_turn_step : option Z;
  need_reflect : option string;
  cycleNum : option Z;
  Composition : option (list phase_item)
}.

(** An instance of a class of [chatdev.phase], outside these sources: only
    its [execute(chat_env, chat_turn_limit, need_reflect)] matters here. *)
Record SimplePhase : Type := {
  execute : ChatEnv → Z → bool → eff ChatEnv
}.

(** An attribute of the module [chatdev.composed_phase], outside these
    sources. A truthy attribute is called with the keyword arguments of
    [execute_step] and [execute] is called on what it returns; [call] is the
    two together, given [phase_name], [cycle_num], [composition] and the
    environment (the arguments [config_phase], [config_role], [model_type]
    and [log_filepath] do not change during a run). *)
Inductive module_attr : Type :=
  | Falsy
  | Truthy (call : string → Z → list phase_item → ChatEnv → eff ChatEnv).

Record ChatChain : Type := {
  chain : list phase_item;
  recruitments : list string;
  chat_turn_limit_default : Z;
  chat_env : ChatEnv;
  phases : gmap string SimplePhase;
  compose_phase_module : gmap string module_attr
}.

(** The keys of ChatChainConfig.json that [__init__] reads. *)
Record ChatChainConfig : Type := {
  cfg_chain : list phase_item;
  cfg_recruitments : list string;
  cfg_clear_structure : string;
  cfg_brainstorming : string;
  cfg_gui_design : string;
  cfg_git_management : string;
  cfg_self_improve : string
}.

(** [ChatChain.__init__], after the three JSON files are loaded; the phase
    instances it builds and the module it imports are given. *)
Definition init (cfg : ChatChainConfig) (instances : gmap string SimplePhase)
    (composed : gmap string module_attr) : ChatChain := {|
  chain := cfg_chain cfg;
  recruitments := cfg_recruitments cfg;
  chat_turn_limit_default := 10;
  chat_env := Env.init {| clear_structure := check_bool (cfg_clear_structure cfg);
                          brainstorming := check_bool (cfg_brainstorming cfg);
                          gui_design := check_bool (cfg_gui_design cfg);
                          git_management := check_bool (cfg_git_management cfg) |};
  phases := instances;
  compose_phase_module := composed
|}.

(** [self.chat_env = ...] *)
Definition with_chat_env (self : ChatChain) (e : ChatEnv) : ChatChain := {|
  chain := chain self;
  recruitments := recruitments self;
  chat_turn_limit_default := chat_turn_limit_default self;
  chat_env := e;
  phases := phases self;
  compose_phase_module := compose_phase_module self
|}.

(** [ChatChain.make_recruitment] *)
Fixpoint recruit_each (e : ChatEnv) (employees : list string) : ChatEnv * eff unit :=
  match employees with
  | [] => (e, mret tt)
  | employee :: rest =>
      match Env.recruit e employee with
      | (e', (acts, Ok _)) =>
          let '(e'', (acts', r)) := recruit_each e' rest in (e'', (acts ++ acts', r))
      | (e', (acts, Raise ex)) => (e', (acts, Raise ex))
      end
  end.

Definition make_recruitment (self : ChatChain) : ChatChain * eff unit :=
  let '(e, r) := recruit_each (chat_env self) (recruitments self) in
  (with_chat_env self e, r).

(** The messages of the three [RuntimeError]s and of the [AttributeError]
    that [getattr] raises. *)
Definition simple_not_implemented (phase : string) : string :=
  "Phase '" +:+ phase +:+ "' is not yet implemented in chatdev.phase".

Definition composed_not_implemented (phase : string) : string :=
  "Phase '" +:+ phase +:+ "' is not yet implemented in chatdev.compose_phase".

Definition type_not_implemented (phase_type : string) : string :=
  "PhaseType '" +:+ phase_type +:+ "' is not yet implemented.".

Definition no_attribute (phase : string) : string :=
  "module 'chatdev.composed_phase' has no attribute '" +:+ phase +:+ "'".

(** The turn bound handed to [execute]. *)
Definition turn_limit (self : ChatChain) (max_turn_step : Z) : Z :=
  if (max_turn_step <=? 0)%Z then chat_turn_limit_default self else max_turn_step.

(** [ChatChain.execute_step]. The chain changes only by the assignment of
    the environment that [execute] returned. A step that raises has no
    chain to return: what a phase wrote into the environment it was handed
    before it raised is not part of this model, which therefore says
    nothing of the environment after a phase has failed. *)
Definition execute_step (self : ChatChain) (item : phase_item) : eff ChatChain :=
  phase ← getitem "phase" (phase item);
  phase_type ← getitem "phaseType" (phaseType item);
  if String.eqb phase_type "SimplePhase" then
    max_turn_step ← getitem "max_turn_step" (max_turn_step item);
    need_reflect ← getitem "need_reflect" (need_reflect item);
    let need_reflect := check_bool need_reflect in
    match phases self !! phase with
    | Some instance =>
        e ← execute instance (chat_env self) (turn_limit self max_turn_step) need_reflect;
        mret (with_chat_env self e)
    | None => raise (RuntimeError (simple_not_implemented phase))
    end
  else if String.eqb phase_type "ComposedPhase" then
    cycle_num ← getitem "cycleNum" (cycleNum item);
    composition ← getitem "Composition" (Composition item);
    match compose_phase_module self !! phase with
    | None => raise (AttributeError (no_attribute phase))
    | Some Falsy => raise (RuntimeError (composed_not_implemented phase))
    | Some (Truthy call) =>
        e ← call phase cycle_num composition (chat_env self);
        mret (with_chat_env self e)
    end
  else raise (RuntimeError (type_not_implemented phase_type)).

(** The loop of [execute_chain] over the steps still to run: the chain it
    leaves, what was done, and how it ended. When a step raises, the chain
    given is the one that the steps before it left; it is the chain of the
    source when the failing step called no phase. *)
Fixpoint execute_steps (self : ChatChain) (items : list phase_item) : ChatChain * eff unit :=
  match items with
  | [] => (self, mret tt)
  | item :: rest =>
      match execute_step self item with
      | (acts, Ok self') =>
          let '(self'', (acts', r)) := execute_steps self' rest in
          (self'', (acts ++ acts', r))
      | (acts, Raise ex) => (self, (acts, Raise ex))
      end
  end.

(** [ChatChain.execute_chain] *)
Definition execute_chain (self : ChatChain) : ChatChain * eff unit :=
  execute_steps self (chain self).

(** *** [ChatChain.self_task_improve] *)

Definition dq : string := String (ascii_of_nat 34) "".

Definition self_task_improve_prompt (task_prompt : string) : string :=
  "I will give you a short description of a software design requirement, " +:+ nl +:+
  "please rewrite it into a detailed prompt that can make large language model know how to make this software better based this prompt," +:+ nl +:+
  "the prompt should ensure LLMs build a software that can be run correctly, which is the most import part you need to consider." +:+ nl +:+
  "remember that the revised prompt should not contain more than 200 words, " +:+ nl +:+
  "here is the short description:" +:+ dq +:+ task_prompt +:+ dq +:+ ". " +:+ nl +:+
  "If the revised prompt is revised_version_of_the_description, " +:+ nl +:+
  "then you should return a message in a format like " +:+ dq +:+
  "<INFO> revised_version_of_the_description" +:+ dq +:+
  ", do not return messages in other formats.".

(** The [RolePlaying] session of [camel.agents], outside these sources:
    [init_chat] gives the first user message for a prompt, [step] the
    content of the assistant's response. *)
Record RolePlaying : Type := {
  init_chat : string → eff string;
  step : string → bool → eff string
}.

(** [content.split("<INFO>")[-1].lower().strip()] *)
Definition revise (content : string) : string :=
  strip (lower (last_piece (split "<INFO>" content))).

Definition self_task_improve (task_prompt : string) (role_play_session : RolePlaying)
  : eff string :=
  input_user_msg ← init_chat role_play_session (self_task_improve_prompt task_prompt);
  content ← step role_play_session input_user_msg true;
  let revised_task_prompt := revise content in
  perform (LogAs "Prompt Engineer" content);;
  perform (Log ("**[Task Prompt Self Improvement]**" +:+ nl +:+
                "**Original Task Prompt**: " +:+ task_prompt +:+ nl +:+
                "**Improved Task Prompt**: " +:+ revised_task_prompt));;
  mret revised_task_prompt.

End Chain.

(** ** Inputs that the statements below range over *)
Module Inputs.
Import PyStr ModulePattern Chain.

(** [all_chars P s]: every character of [s] satisfies [P]. *)
Fixpoint all_chars (P : ascii → bool) (s : string) : bool :=
  match s with
  | "" => true
  | String c s' => P c && all_chars P s'
  end.

(** A module name as an import error prints it: not empty, no blank and no
    single quote in it. *)
Definition module_name (m : string) : bool :=
  negb (String.eqb m "")
  && all_chars (λ c, negb (is_space c) && negb (Ascii.eqb c quote)) m.

(** The line that the interpreter prints for a missing module. *)
Definition mention (m : string) : string :=
  "ModuleNotFoundError: No module named '" +:+ m +:+ "'" +:+ nl.

(** A test report with one such line for each module of [ms], in order. *)
Fixpoint report (ms : list string) : string :=
  match ms with
  | [] => ""
  | m :: ms' => mention m +:+ report ms'
  end.

(** A step whose phase name the chain cannot resolve, with the exception
    that the lookup ends in: a [SimplePhase] that is not a key of
    [self.phases]; a [ComposedPhase] that is not an attribute of the module;
    a [ComposedPhase] whose attribute is falsy. The step has the keys that
    its type needs. *)
Inductive unresolved (self : ChatChain) (item : phase_item) : string → exn → Prop :=
  | unresolved_simple name n r :
      phase item = Some name →
      phaseType item = Some "SimplePhase" →
      max_turn_step item = Some n →
      need_reflect item = Some r →
      phases self !! name = None →
      unresolved self item name (RuntimeError (simple_not_implemented name))
  | unresolved_missing name n c :
      phase item = Some name →
      phaseType item = Some "ComposedPhase" →
      cycleNum item = Some n →
      Composition item = Some c →
      compose_phase_module self !! name = None →
      unresolved self item name (AttributeError (no_attribute name))
  | unresolved_falsy name n c :
      phase item = Some name →
      phaseType item = Some "ComposedPhase" →
      cycleNum item = Some n →
      Composition item = Some c →
      compose_phase_module self !! name = Some Falsy →
      unresolved self item name (RuntimeError (composed_not_implemented name)).

(** Two children that differ at most in their exit status. *)
Definition same_but_status (w w' : BuildValidator.child) : Prop :=
  BuildValidator.spawn_raises w = BuildValidator.spawn_raises w'
  ∧ BuildValidator.kill_raises w = BuildValidator.kill_raises w'
  ∧ BuildValidator.stderr_read w = BuildValidator.stderr_read w'.

End Inputs.

(** ** Concrete runs *)
Module Examples.
Import PyStr BuildValidator Env Chain.

Definition config0 : ChatChainConfig := {|
  cfg_chain := [];
  cfg_recruitments := ["Chief Executive Officer"; "Programmer"; "Programmer"];
  cfg_clear_structure := "True";
  cfg_brainstorming := "False";
  cfg_gui_design := "True";
  cfg_git_management := "False";
  cfg_self_improve := "False"
|}.

(** An empty project directory that exists already. *)
Definition fs0 : fs := {|
  path_exists := λ _, true;
  listdir := λ _, [];
  localtime := "20240101120000"
|}.

(** The fresh environment, and the one bound to [/w/proj]. *)
Definition env0 : ChatEnv := chat_env (init config0 ∅ ∅).
Definition env1 : ChatEnv := fst (set_directory env0 "/w/proj" fs0).

Definition traceback : string :=
  "Traceback (most recent call last):" +:+ nl +:+
  "  File " +:+ dq +:+ "/w/proj/main.py" +:+ dq +:+ ", line 1, in <module>" +:+ nl +:+
  "ZeroDivisionError: division by zero" +:+ nl.

(** A server that logged a traceback and is still running after the sleep. *)
Definition alive_with_traceback : child := {|
  spawn_raises := None;
  exit_status := None;
  kill_raises := None;
  stderr_read := Ok traceback
|}.

(** A program that printed a traceback it caught and then exited with 0. *)
Definition zero_with_traceback : child := {|
  spawn_raises := None;
  exit_status := Some 0%Z;
  kill_raises := None;
  stderr_read := Ok traceback
|}.

(** A program that died of the exception. *)
Definition crashed : child := {|
  spawn_raises := None;
  exit_status := Some 1%Z;
  kill_raises := None;
  stderr_read := Ok traceback
|}.

(** The shell could not be started. *)
Definition no_shell : child := {|
  spawn_raises := Some (Exception "[Errno 2] No such file or directory: '/bin/sh'");
  exit_status := None;
  kill_raises := None;
  stderr_read := Ok ""
|}.

Definition with_ideas (self : ChatEnv) (text : string) : ChatEnv := {|
  config := config self;
  roster := roster self;
  codes_directory := codes_directory self;
  requirements_directory := requirements_directory self;
  manuals_directory := manuals_directory self;
  proposed_images := proposed_images self;
  incorporated_images := incorporated_images self;
  env_dict := {| directory := directory (env_dict self);
                 task_prompt := task_prompt (env_dict self);
                 modality := modality (env_dict self);
                 ideas := text;
                 language := language (env_dict self);
                 review_comments := review_comments (env_dict self);
                 error_summary := error_summary (env_dict self);
                 test_reports := test_reports (env_dict self) |}
|}.

(** A phase that logs the turn bound it was given and writes [ideas]. *)
Definition draft : SimplePhase := {|
  execute := λ e turns reflect,
    perform (Log ("Draft, at most " +:+ pretty turns +:+ " turns"));;
    mret (with_ideas e "a snake game")
|}.

(** A session whose assistant answers [reply] to anything. *)
Definition engineer (reply : string) : RolePlaying := {|
  init_chat := λ prompt, mret prompt;
  step := λ _ _, mret reply
|}.

Definition simple (name : string) (turns : Z) : phase_item := {|
  phase := Some name;
  phaseType := Some "SimplePhase";
  max_turn_step := Some turns;
  need_reflect := Some "False";
  cycleNum := None;
  Composition := None
|}.

(** A chain whose second step names a phase that was never registered. *)
Definition chain1 : ChatChain := {|
  chain := [simple "Draft" 3; simple "Coding" 5; simple "Draft" 1];
  recruitments := cfg_recruitments config0;
  chat_turn_limit_default := 10;
  chat_env := env0;
  phases := {[ "Draft" := draft ]};
  compose_phase_module := ∅
|}.

End Examples.

(** ** Paths and joins: [os.path] on POSIX, [str.endswith], [str.join] *)
Module PyPath.
Import PyStr.

Definition sep : ascii := "/"%char.

(** [s.endswith(suffix)] *)
Definition endswith (suffix s : string) : bool :=
  String.eqb (drop (String.length s - String.length suffix) s) suffix.

(** [sep.join(parts)] *)
Fixpoint str_join (separator : string) (parts : list string) : string :=
  match parts with
  | [] => ""
  | [p] => p
  | p :: rest => p +:+ separator +:+ str_join separator rest
  end.

(** [os.path.join(a, b)]: an absolute [b] replaces [a]; otherwise [b] is
    appended, after a slash unless [a] is empty or ends with one. *)
Definition path_join (a b : string) : string :=
  if startswith "/" b then b
  else if String.eqb a "" || endswith "/" a then a +:+ b
  else a +:+ "/" +:+ b.

(** ['/' in p] *)
Fixpoint has_sep (p : string) : bool :=
  match p with
  | "" => false
  | String c p' => Ascii.eqb c sep || has_sep p'
  end.

(** [p[:p.rfind('/') + 1]]: the prefix of [p] up to its last slash. *)
Fixpoint dir_head (p : string) : string :=
  match p with
  | "" => ""
  | String c p' =>
      if has_sep p' then String c (dir_head p')
      else if Ascii.eqb c sep then String c "" else ""
  end.

(** [head != sep * len(head)]: some character of [head] is not a slash. *)
Fixpoint not_all_sep (head : string) : bool :=
  match head with
  | "" => false
  | String c head' => negb (Ascii.eqb c sep) || not_all_sep head'
  end.

(** [head.rstrip('/')] *)
Fixpoint rstrip_sep (head : string) : string :=
  match head with
  | "" => ""
  | String c head' =>
      match rstrip_sep head' with
      | "" => if Ascii.eqb c sep then "" else String c ""
      | r => String c r
      end
  end.

(** [os.path.dirname(p)] *)
Definition dirname (p : string) : string :=
  let head := dir_head p in
  if negb (String.eqb head "") && not_all_sep head then rstrip_sep head else head.

End PyPath.

(** ** [ChatChain.get_logfilepath] and [ChatChain.pre_processing] *)
Module Housekeeping.
Import PyStr PyPath Env Chain.

(** Actions on files and on the network, beside the actions of the
    components that are called. *)
Inductive io_action : Type :=
  | Act (a : action)
  | Remove (path : string)                  (* [os.remove(path)] *)
  | Copy (src dst : string)                 (* [shutil.copy(src, dst)] *)
  | WriteFile (path content : string)       (* [open(path, mode).write(content)] *)
  | CreateImage (prompt : string)           (* [openai.Image.create(prompt=prompt, n=1, size="256x256")] *)
  | HttpGet (url : string).                 (* [requests.get(url)] *)

(** The attributes of a [ChatChain] that the housekeeping reads, beside the
    chain state proper; [module_file] is [__file__] of chat_chain.py. *)
Record Orchestrator : Type := {
  chat_chain : ChatChain;
  settings : ChatChainConfig;
  config_path : string;
  config_phase_path : string;
  config_role_path : string;
  project_name : string;
  org_name : string;
  task_prompt_raw : string;
  start_time : string;
  log_filepath : string;
  module_file : string
}.

(** [ChatChain.get_logfilepath], given what [now()] returns. *)
Definition get_logfilepath (module_file project_name org_name now : string)
  : string * string :=
  let start_time := now in
  let filepath := dirname module_file in
  let root := dirname filepath in
  let directory := path_join root "WareHouse" in
  let log_filepath :=
    path_join directory
      (str_join "_" [project_name; org_name; start_time] +:+ ".log") in
  (start_time, log_filepath).

(** The part of [ChatChain.__init__] that sets those attributes. *)
Definition orchestrate (cfg : ChatChainConfig) (instances : gmap string SimplePhase)
    (composed : gmap string module_attr)
    (config_path config_phase_path config_role_path : string)
    (task_prompt project_name org_name module_file now : string) : Orchestrator :=
  let '(start_time, log_filepath) :=
    get_logfilepath module_file project_name org_name now in {|
  chat_chain := Chain.init cfg instances composed;
  settings := cfg;
  config_path := config_path;
  config_phase_path := config_phase_path;
  config_role_path := config_role_path;
  project_name := project_name;
  org_name := org_name;
  task_prompt_raw := task_prompt;
  start_time := start_time;
  log_filepath := log_filepath;
  module_file := module_file
|}.

(** Python's [str(True)] and [str(False)] *)
Definition str_bool (b : bool) : string := if b then "True" else "False".

(** [ChatEnvConfig.__str__] *)
Definition config_str (c : ChatEnvConfig) : string :=
  "ChatEnvConfig.clear_structure: " +:+ str_bool (clear_structure c) +:+ nl +:+
  "ChatEnvConfig.brainstorming: " +:+ str_bool (brainstorming c) +:+ nl.

(** What the outside answers during [pre_processing]: the listing of the
    WareHouse directory, which of its entries are regular files, the file
    system as [set_directory] finds it once the cleaning is done, the text
    of [ChatGPTConfig()], and the text of the interpreter's
    [UnboundLocalError] for the variable [directory]. *)
Record pre_world : Type := {
  warehouse : list string;
  isfile : string → bool;
  after_cleaning : fs;
  chat_gpt_config : string;
  unbound_local : string
}.

(** The body of the loop over the WareHouse directory, for one entry. *)
Definition clean_one (w : pre_world) (directory filename : string) : list io_action :=
  let file_path := path_join directory filename in
  if isfile w file_path && negb (endswith ".py" filename)
     && negb (endswith ".log" filename)
  then [Remove file_path; Act (Print (file_path +:+ " Removed."))]
  else [].

Definition preprocess_msg (o : Orchestrator) (w : pre_world) (e : ChatEnv) : string :=
  "**[Preprocessing]**" +:+ nl +:+ nl +:+
  "**ChatDev Starts** (" +:+ start_time o +:+ ")" +:+ nl +:+ nl +:+
  "**Timestamp**: " +:+ start_time o +:+ nl +:+ nl +:+
  "**config_path**: " +:+ config_path o +:+ nl +:+ nl +:+
  "**config_phase_path**: " +:+ config_phase_path o +:+ nl +:+ nl +:+
  "**config_role_path**: " +:+ config_role_path o +:+ nl +:+ nl +:+
  "**task_prompt**: " +:+ task_prompt_raw o +:+ nl +:+ nl +:+
  "**project_name**: " +:+ project_name o +:+ nl +:+ nl +:+
  "**Log File**: " +:+ log_filepath o +:+ nl +:+ nl +:+
  "**ChatDevConfig**:" +:+ nl +:+ " " +:+ config_str (config e) +:+ nl +:+ nl +:+
  "**ChatGPTConfig**:" +:+ nl +:+ " " +:+ chat_gpt_config w +:+ nl +:+ nl.

(** [self.chat_env.env_dict["task_prompt"] = text] *)
Definition with_task_prompt (self : ChatEnv) (text : string) : ChatEnv := {|
  config := config self;
  roster := roster self;
  codes_directory := codes_directory self;
  requirements_directory := requirements_directory self;
  manuals_directory := manuals_directory self;
  proposed_images := proposed_images self;
  incorporated_images := incorporated_images self;
  env_dict := {| directory := directory (env_dict self);
                 task_prompt := text;
                 modality := modality (env_dict self);
                 ideas := ideas (env_dict self);
                 language := language (env_dict self);
                 review_comments := review_comments (env_dict self);
                 error_summary := error_summary (env_dict self);
                 test_reports := test_reports (env_dict self) |}
|}.

(** The values of the locals [directory] and [software_path] of
    [pre_processing] when the branch of [clear_structure] is taken. *)
Definition warehouse_of (o : Orchestrator) : string :=
  path_join (dirname (dirname (module_file o))) "WareHouse".

Definition software_path_of (o : Orchestrator) : string :=
  path_join (warehouse_of o)
    (str_join "_" [project_name o; org_name o; start_time o]).

(** [ChatChain.pre_processing]: the environment of the chain afterwards,
    what was done, and how it ended. The local variable [directory] is
    assigned in the branch of [clear_structure] only; the statement after
    the branch reads it, which raises [UnboundLocalError] when the branch
    was not taken. The calls on files succeed. *)
Definition pre_processing (o : Orchestrator) (w : pre_world) (session : RolePlaying)
  : ChatEnv * (list io_action * result unit) :=
  let e := chat_env (chat_chain o) in
  if clear_structure (config e) then
    let filepath := dirname (module_file o) in
    let root := dirname filepath in
    let directory := path_join root "WareHouse" in
    let cleaning := flat_map (clean_one w directory) (warehouse w) in
    let software_path :=
      path_join directory (str_join "_" [project_name o; org_name o; start_time o]) in
    match set_directory e software_path (after_cleaning w) with
    | (e1, (acts, Raise ex)) => (e1, (cleaning ++ map Act acts, Raise ex))
    | (e1, (acts, Ok _)) =>
        let copies :=
          [Copy (config_path o) software_path;
           Copy (config_phase_path o) software_path;
           Copy (config_role_path o) software_path;
           WriteFile (path_join software_path (project_name o +:+ ".prompt"))
                     (task_prompt_raw o);
           Act (Log (preprocess_msg o w e1))] in
        let done := cleaning ++ map Act acts ++ copies in
        if check_bool (cfg_self_improve (settings o)) then
          match self_task_improve (task_prompt_raw o) session with
          | (acts', Ok revised) =>
              (with_task_prompt e1 revised, (done ++ map Act acts', Ok tt))
          | (acts', Raise ex) => (e1, (done ++ map Act acts', Raise ex))
          end
        else (with_task_prompt e1 (task_prompt_raw o), (done, Ok tt))
    end
  else (e, ([], Raise (Exception (unbound_local w)))).

End Housekeeping.

(** ** [ChatEnv.get_proposed_images_from_message] *)
Module Images.
Import PyStr PyPath Housekeeping.

(** The class [\w] of [re] on [str] patterns, below 256: digits, letters,
    the underscore and the alphanumeric characters of Latin-1. *)
Definition is_word (c : ascii) : bool :=
  let n := nat_of_ascii c in
  ((48 <=? n) && (n <=? 57))%nat || ((65 <=? n) && (n <=? 90))%nat
  || (n =? 95)%nat || ((97 <=? n) && (n <=? 122))%nat
  || (n =? 170)%nat || ((178 <=? n) && (n <=? 179))%nat || (n =? 181)%nat
  || ((185 <=? n) && (n <=? 186))%nat || ((188 <=? n) && (n <=? 190))%nat
  || ((192 <=? n) && (n <=? 214))%nat || ((216 <=? n) && (n <=? 246))%nat
  || ((248 <=? n) && (n <=? 255))%nat.

(** The number of word characters at the head of [s]: what the greedy
    [\w+] takes first. *)
Fixpoint word_run (s : string) : nat :=
  match s with
  | "" => 0
  | String c s' => if is_word c then S (word_run s') else 0
  end.

(** Backtracking of [\w+]: the greatest [k] from [n] down to 1 at which
    the rest of the pattern matches. *)
Fixpoint longest (rest_matches : nat → bool) (n : nat) : option nat :=
  match n with
  | 0 => None
  | S n' => if rest_matches n then Some n else longest rest_matches n'
  end.

(** The text before the first line feed, when there is one: what the lazy
    [(.*?)] captures in front of [\n]. *)
Fixpoint until_nl (s : string) : option string :=
  match s with
  | "" => None
  | String c s' =>
      if Ascii.eqb c (ascii_of_nat 10) then Some ""
      else match until_nl s' with
           | Some d => Some (String c d)
           | None => None
           end
  end.

(** [.png] after [k] word characters: any one character, then [png]. *)
Definition dot_png (s : string) (k : nat) : bool :=
  match drop k s with
  | String _ rest => startswith "png" rest
  | "" => false
  end.

(** [.png:(.*?)\n] after [k] word characters. *)
Definition dot_png_described (s : string) (k : nat) : bool :=
  match drop k s with
  | String _ rest =>
      startswith "png:" rest
      && match until_nl (drop 4 rest) with Some _ => true | None => false end
  | "" => false
  end.

(** A match of [(\w+.png)] anchored at the head of [s]: group 1 and the
    length matched. *)
Definition name_here (s : string) : option (string * nat) :=
  match longest (dot_png s) (word_run s) with
  | Some k => Some (take (k + 4) s, k + 4)
  | None => None
  end.

(** A match of [(\w+.png):(.*?)\n] anchored at the head of [s]: the two
    groups and the length matched. *)
Definition described_here (s : string) : option ((string * string) * nat) :=
  match longest (dot_png_described s) (word_run s) with
  | Some k =>
      match until_nl (drop (k + 5) s) with
      | Some d => Some ((take (k + 4) s, d), k + 5 + String.length d + 1)
      | None => None
      end
  | None => None
  end.

(** [re.finditer] for a pattern given by its anchored matcher: matches are
    sought left to right and the search resumes where the last one ended. *)
Fixpoint scan {A : Type} (here : string → option (A * nat)) (skip : nat) (s : string)
  : list A :=
  match s with
  | "" => []
  | String _ s' =>
      match skip with
      | S k => scan here k s'
      | 0 =>
          match here s with
          | Some (g, len) => g :: scan here (len - 1) s'
          | None => scan here 0 s'
          end
      end
  end.

(** A [dict] with string keys, in insertion order: [d[k] = v] replaces the
    value of a key in place and adds a new key at the end. *)
Fixpoint dict_set (d : list (string * string)) (k v : string) : list (string * string) :=
  match d with
  | [] => [(k, v)]
  | (k', v') :: rest =>
      if String.eqb k' k then (k', v) :: rest else (k', v') :: dict_set rest k v
  end.

(** The first loop: [images[filename] = desc] for the described names. *)
Definition described_images (messages : string) : list (string * string) :=
  fold_left (λ images g, dict_set images (strip (fst g)) (strip (snd g)))
            (scan described_here 0 messages) [].

(** [" ".join(filename.replace(".png", "").split("_"))] *)
Definition description_of (filename : string) : string :=
  str_join " " (split "_" (replace ".png" "" filename)).

(** The second loop, run when the first found nothing: the dictionary, and
    the lines printed. *)
Definition bare_images (messages : string) : list (string * string) * list io_action :=
  fold_left (λ '(images, printed) g,
               let filename := strip g in
               let desc := description_of filename in
               (dict_set images filename desc,
                printed ++ [Act (Print (filename +:+ ": " +:+ desc))]))
            (scan name_here 0 messages) ([], []).

(** What the outside answers while the images are fetched: whether a path
    exists when the loop looks, whether it exists when [download] looks
    again, what the image service returns for a prompt (the URL of
    [response["data"][0]["url"]], or an exception), and the content that
    [requests.get] returns for a URL. *)
Record image_world : Type := {
  on_disk : string → bool;
  on_disk_then : string → bool;
  create_image : string → result string;
  http_get : string → result string
}.

(** The body of the last loop, for one entry of the dictionary. *)
Definition fetch_one (w : image_world) (directory : string) (entry : string * string)
  : list io_action * result unit :=
  let '(filename, desc) := entry in
  let filepath := path_join directory filename in
  if negb (on_disk w filepath) then
    let desc := if endswith ".png" desc then replace ".png" "" desc else desc in
    let said := [Act (Print (filename +:+ ": " +:+ desc)); CreateImage desc] in
    match create_image w desc with
    | Raise ex => (said, Raise ex)
    | Ok image_url =>
        match http_get w image_url with
        | Raise ex => (said ++ [HttpGet image_url], Raise ex)
        | Ok content =>
            (said ++ [HttpGet image_url]
               ++ (if on_disk_then w filepath then [Remove filepath] else [])
               ++ [WriteFile filepath content;
                   Act (Print (filepath +:+ " Downloaded"))],
             Ok tt)
        end
    end
  else ([], Ok tt).

Fixpoint fetch_all (w : image_world) (directory : string)
    (entries : list (string * string)) : list io_action * result unit :=
  match entries with
  | [] => ([], Ok tt)
  | entry :: rest =>
      match fetch_one w directory entry with
      | (acts, Ok _) =>
          let '(acts', r) := fetch_all w directory rest in (acts ++ acts', r)
      | (acts, Raise ex) => (acts, Raise ex)
      end
  end.

(** [ChatEnv.get_proposed_images_from_message] *)
Definition get_proposed_images_from_message (self : ChatEnv) (messages : string)
    (w : image_world) : list io_action * result (list (string * string)) :=
  let images := described_images messages in
  let '(images, printed) :=
    if (length images =? 0)%nat then bare_images messages else (images, []) in
  match fetch_all w (directory (env_dict self)) images with
  | (acts, Ok _) => (printed ++ acts, Ok images)
  | (acts, Raise ex) => (printed ++ acts, Raise ex)
  end.

(** The shape of group 1 of both patterns: word characters, at least one,
    then one character of any kind, then [png]. *)
Definition image_name (f : string) : Prop :=
  ∃ name c, f = name +:+ String c "png"
            ∧ name ≠ "" ∧ Inputs.all_chars is_word name = true.

End Images.

(** ** Further concrete runs *)
Module MoreExamples.
Import PyStr BuildValidator Env Chain Examples.

(** A program that printed its usage and left with status 2. *)
Definition usage_error : child := {|
  spawn_raises := None;
  exit_status := Some 2%Z;
  kill_raises := None;
  stderr_read := Ok "usage: main.py [-h]"
|}.

(** A crash whose traceback names a file of the project. *)
Definition crashed_in_project : child := {|
  spawn_raises := None;
  exit_status := Some 1%Z;
  kill_raises := None;
  stderr_read := Ok "Traceback: File /w/proj/main.py, line 1"
|}.

(** A crash inside a library, outside the project. *)
Definition crashed_in_library : child := {|
  spawn_raises := None;
  exit_status := Some 1%Z;
  kill_raises := None;
  stderr_read := Ok "Traceback: File /usr/lib/python3/json/decoder.py, line 355"
|}.

(** A project directory that exists and holds a file. *)
Definition fs_full : fs := {|
  path_exists := λ _, true;
  listdir := λ _, ["main.py"];
  localtime := "20240101120000"
|}.

(** No such directory yet. *)
Definition fs_none : fs := {|
  path_exists := λ _, false;
  listdir := λ _, [];
  localtime := "20240101120000"
|}.

(** An environment whose configuration leaves old files alone. *)
Definition env_keep : ChatEnv :=
  Env.init {| clear_structure := false; brainstorming := false;
              gui_design := false; git_management := false |}.

(** A phase whose dialogue fails after it has logged its start. *)
Definition review : SimplePhase := {|
  execute := λ e turns reflect,
    perform (Log "Review starts");; raise (Exception "API timeout")
|}.

(** A composed phase that logs how it was built and writes [ideas]. *)
Definition test_cycle : module_attr :=
  Truthy (λ name cycle_num composition e,
    perform (Log (name +:+ ": " +:+ pretty cycle_num +:+ " cycles of "
                  +:+ pretty (length composition) +:+ " phases"));;
    mret (with_ideas e "tested")).

(** A [SimplePhase] step written without its [max_turn_step]. *)
Definition no_turns : phase_item := {|
  phase := Some "Draft";
  phaseType := Some "SimplePhase";
  max_turn_step := None;
  need_reflect := Some "False";
  cycleNum := None;
  Composition := None
|}.

Definition composed (name : string) (cycles : Z) (inner : list phase_item)
  : phase_item := {|
  phase := Some name;
  phaseType := Some "ComposedPhase";
  max_turn_step := None;
  need_reflect := None;
  cycleNum := Some cycles;
  Composition := Some inner
|}.

(** A step whose [phaseType] is misspelt in the configuration. *)
Definition mistyped : phase_item := {|
  phase := Some "Coding";
  phaseType := Some "SimplPhase";
  max_turn_step := Some 5%Z;
  need_reflect := Some "False";
  cycleNum := None;
  Composition := None
|}.

(** A chain with a failing phase and a composed phase. *)
Definition chain2 : ChatChain := {|
  chain := [simple "Draft" 3; composed "Test" 2 [simple "Draft" 1; simple "Review" 1];
            simple "Review" 2; simple "Draft" 1];
  recruitments := [];
  chat_turn_limit_default := 10;
  chat_env := env0;
  phases := {[ "Draft" := draft; "Review" := review ]};
  compose_phase_module := {[ "Test" := test_cycle; "__doc__" := Falsy ]}
|}.

(** A session whose assistant cannot be reached. *)
Definition unreachable : RolePlaying := {|
  init_chat := λ prompt, perform (Log "System: Prompt Engineer");; mret prompt;
  step := λ _ _, raise (Exception "Connection error.")
|}.

(** A run set up as the repository lays it out, for the project [Snake]. *)
Definition snake : Housekeeping.Orchestrator :=
  Housekeeping.orchestrate config0 {[ "Draft" := draft ]} ∅
    "/opt/ChatDev/CompanyConfig/Default/ChatChainConfig.json"
    "/opt/ChatDev/CompanyConfig/Default/PhaseConfig.json"
    "/opt/ChatDev/CompanyConfig/Default/RoleConfig.json"
    "Build A Snake Game" "Snake" "Acme" "/opt/ChatDev/chatdev/chat_chain.py"
    "20240101120000".

(** The same run configured to keep the structure of the WareHouse. *)
Definition snake_keep : Housekeeping.Orchestrator :=
  Housekeeping.orchestrate
    {| cfg_chain := []; cfg_recruitments := []; cfg_clear_structure := "False";
       cfg_brainstorming := "False"; cfg_gui_design := "True";
       cfg_git_management := "False"; cfg_self_improve := "False" |}
    {[ "Draft" := draft ]} ∅
    "/opt/ChatDev/CompanyConfig/Default/ChatChainConfig.json"
    "/opt/ChatDev/CompanyConfig/Default/PhaseConfig.json"
    "/opt/ChatDev/CompanyConfig/Default/RoleConfig.json"
    "Build A Snake Game" "Snake" "Acme" "/opt/ChatDev/chatdev/chat_chain.py"
    "20240101120000".

(** The run [snake] once its environment is bound to [/w/proj]. *)
Definition snake_bound : Housekeeping.Orchestrator := {|
  Housekeeping.chat_chain := with_chat_env (Housekeeping.chat_chain snake) env1;
  Housekeeping.settings := Housekeeping.settings snake;
  Housekeeping.config_path := Housekeeping.config_path snake;
  Housekeeping.config_phase_path := Housekeeping.config_phase_path snake;
  Housekeeping.config_role_path := Housekeeping.config_role_path snake;
  Housekeeping.project_name := Housekeeping.project_name snake;
  Housekeeping.org_name := Housekeeping.org_name snake;
  Housekeeping.task_prompt_raw := Housekeeping.task_prompt_raw snake;
  Housekeeping.start_time := Housekeeping.start_time snake;
  Housekeeping.log_filepath := Housekeeping.log_filepath snake;
  Housekeeping.module_file := Housekeeping.module_file snake
|}.

(** The WareHouse holds an old log, a script, a stray note and a project. *)
Definition warehouse0 : Housekeeping.pre_world := {|
  Housekeeping.warehouse := ["old.log"; "run.py"; "notes.txt"; "Snake_Acme_2023"];
  Housekeeping.isfile := λ p, negb (String.eqb p "/opt/ChatDev/WareHouse/Snake_Acme_2023");
  Housekeeping.after_cleaning := fs_none;
  Housekeeping.chat_gpt_config := "ChatGPTConfig(temperature=0.2)";
  Housekeeping.unbound_local :=
    "cannot access local variable 'directory' where it is not associated with a value"
|}.

(** The same WareHouse when the directory of the project is there already
    and holds a file. *)
Definition warehouse_taken : Housekeeping.pre_world := {|
  Housekeeping.warehouse := Housekeeping.warehouse warehouse0;
  Housekeeping.isfile := Housekeeping.isfile warehouse0;
  Housekeeping.after_cleaning := fs_full;
  Housekeeping.chat_gpt_config := Housekeeping.chat_gpt_config warehouse0;
  Housekeeping.unbound_local := Housekeeping.unbound_local warehouse0
|}.

(** An image service; the logo of the project is on disk already. *)
Definition service : Images.image_world := {|
  Images.on_disk := λ p, String.eqb p "/w/proj/logo.png";
  Images.on_disk_then := λ _, false;
  Images.create_image := λ prompt, Ok ("https://images.example/" +:+ prompt);
  Images.http_get := λ url, Ok ("PNG from " +:+ url)
|}.

(** A message that describes two images, one of them the logo. *)
Definition two_images : string :=
  "logo.png: The logo of the game" +:+ nl +:+
  "snake_head.png: A green snake head" +:+ nl.

End MoreExamples.

(** ** Sequences of calls *)
Module Runs.
Import Env.

(** The environment after a sequence of calls of [set_directory], each with
    its argument and with what the file system answers at that time; a call
    that raises leaves the environment to the next call as it found it. *)
Fixpoint set_directories (self : ChatEnv) (calls : list (string * fs)) : ChatEnv :=
  match calls with
  | [] => self
  | (d, w) :: rest => set_directories (fst (set_directory self d w)) rest
  end.

End Runs.

(** * Properties *)

(** Appending to a literal computes in the proofs below. *)
#[local] Arguments String.append !s1 s2 : simpl nomatch.
#[local] Set Warnings "-clear-no-such-hyp".

(** ** Strings *)
Module PyStrFacts.
Import PyStr.

Lemma append_nil_r (s : string) : s +:+ "" = s.
Proof. induction s as [|c s IH]; simpl; [reflexivity | now rewrite IH]. Qed.

Lemma append_assoc (a b c : string) : (a +:+ b) +:+ c = a +:+ (b +:+ c).
Proof. induction a as [|x a IH]; simpl; [reflexivity | now rewrite IH]. Qed.

Lemma length_append (a b : string) :
  String.length (a +:+ b) = (String.length a + String.length b)%nat.
Proof. induction a as [|x a IH]; simpl; [reflexivity | now rewrite IH]. Qed.

Lemma startswith_append (p s : string) : startswith p (p +:+ s) = true.
Proof.
  induction p as [|c p IH]; simpl; [reflexivity |].
  now rewrite Ascii.eqb_refl, IH.
Qed.

Lemma contains_cons (needle : string) (c : ascii) (s : string) :
  contains needle (String c s) = startswith needle (String c s) || contains needle s.
Proof. reflexivity. Qed.

Lemma contains_head (needle s : string) : contains needle (needle +:+ s) = true.
Proof.
  destruct (needle +:+ s) eqn:E.
  - destruct needle; [reflexivity | discriminate].
  - rewrite contains_cons, <- E, startswith_append. reflexivity.
Qed.

Lemma contains_append_r (needle a s : string) :
  contains needle s = true → contains needle (a +:+ s) = true.
Proof.
  intros H; induction a as [|c a IH]; simpl String.append; [assumption |].
  rewrite contains_cons, IH. apply orb_true_r.
Qed.

Lemma contains_tail (needle a : string) : contains needle (a +:+ needle) = true.
Proof.
  apply contains_append_r.
  rewrite <- (append_nil_r needle) at 2. apply contains_head.
Qed.

(** [a + needle + b] contains [needle]. *)
Lemma contains_middle (needle a b : string) :
  contains needle (a +:+ needle +:+ b) = true.
Proof. apply contains_append_r, contains_head. Qed.

(** The primitives on the inputs where Python's behaviour is least obvious. *)
Example replace_no_overlap : replace "aa" "b" "aaaaa" = "bba".
Proof. reflexivity. Qed.

Example replace_empty_old : replace "" "-" "abc" = "-a-b-c-".
Proof. reflexivity. Qed.

Example replace_directory :
  replace "/w/proj/" "" "File /w/proj/main.py, /w/proj/util.py" = "File main.py, util.py".
Proof. reflexivity. Qed.

Example split_no_overlap : split "aa" "aaaaa" = [""; ""; "a"].
Proof. reflexivity. Qed.

Example split_trailing : split "<INFO>" "a<INFO>" = ["a"; ""].
Proof. reflexivity. Qed.

Example strip_blanks :
  strip (String (ascii_of_nat 28) " a b " +:+ String (ascii_of_nat 160) nl) = "a b".
Proof. reflexivity. Qed.

Example lower_ascii : lower "Traceback <INFO> 42" = "traceback <info> 42".
Proof. reflexivity. Qed.

Lemma drop_append (a s : string) : drop (String.length a) (a +:+ s) = s.
Proof. induction a as [|c a IH]; simpl; [now destruct s | assumption]. Qed.

Lemma take_append (a s : string) : take (String.length a) (a +:+ s) = a.
Proof. induction a as [|c a IH]; simpl; [reflexivity | now rewrite IH]. Qed.

End PyStrFacts.

(** ** The pattern matcher on well-formed reports *)
Module ModulePatternFacts.
Import PyStr ModulePattern Inputs PyStrFacts.

(** The greedy [\S+] runs to the last quote of the run of non-blanks; an
    empty name is no match; a failed attempt moves the scan on by one. *)
Example finditer_greedy : finditer "No module named 'foo','bar' x" = ["foo','bar"].
Proof. reflexivity. Qed.

Example finditer_empty_name : finditer "No module named '' 'a'" = [].
Proof. reflexivity. Qed.

Example finditer_inner_quote : finditer "No module named 'a'b'c d'" = ["a'b"].
Proof. reflexivity. Qed.

Example finditer_restart :
  finditer "xNo module named 'No module named 'q''" = ["q'"].
Proof. reflexivity. Qed.

Lemma finditer_from_skip (a s : string) (k : nat) :
  finditer_from (String.length a + k) (a +:+ s) = finditer_from k s.
Proof. induction a as [|c a IH]; simpl; [reflexivity | assumption]. Qed.

Lemma non_space_run_stop (a : string) (c : ascii) (s : string) :
  all_chars (λ x, negb (is_space x)) a = true →
  is_space c = true →
  non_space_run (a +:+ String c s) = a.
Proof.
  intros Ha Hc; induction a as [|x a IH]; simpl in *.
  - now rewrite Hc.
  - apply andb_true_iff in Ha as [Hx Ha].
    apply negb_true_iff in Hx. rewrite Hx, (IH Ha). reflexivity.
Qed.

Lemma last_quote_end (m : string) (i : nat) :
  all_chars (λ x, negb (Ascii.eqb x quote)) m = true →
  (i + String.length m ≠ 0)%nat →
  last_quote i (m +:+ String quote "") = Some (i + String.length m)%nat.
Proof.
  revert i; induction m as [|x m IH]; intros i Hm Hi; simpl in *.
  - rewrite Nat.add_0_r in *.
    destruct i as [|i]; [congruence | reflexivity].
  - apply andb_true_iff in Hm as [Hx Hm].
    rewrite (IH (S i) Hm) by lia. f_equal; lia.
Qed.

Lemma module_name_inv (m : string) :
  module_name m = true →
  m ≠ ""
  ∧ all_chars (λ x, negb (is_space x)) m = true
  ∧ all_chars (λ x, negb (Ascii.eqb x quote)) m = true.
Proof.
  unfold module_name; intros H.
  apply andb_true_iff in H as [Hne Hall]. split.
  - intros ->. discriminate.
  - clear Hne. induction m as [|x m IH]; simpl in *; [now split |].
    apply andb_true_iff in Hall as [Hx Hall].
    apply andb_true_iff in Hx as [-> ->].
    destruct (IH Hall) as [-> ->]. now split.
Qed.

Lemma all_chars_append (P : ascii → bool) (a b : string) :
  all_chars P (a +:+ b) = all_chars P a && all_chars P b.
Proof.
  induction a as [|x a IH]; simpl; [reflexivity |].
  now rewrite IH, andb_assoc.
Qed.

(** At a quoted module name followed by a line end, the pattern matches the
    name and nothing more. *)
Lemma match_here_mention (m rest : string) :
  module_name m = true →
  match_here (literal +:+ m +:+ String quote nl +:+ rest)
  = Some (m, (String.length literal + String.length m + 1)%nat).
Proof.
  intros Hm. destruct (module_name_inv m Hm) as (Hne & Hsp & Hq).
  unfold match_here.
  rewrite startswith_append, drop_append.
  replace (m +:+ String quote nl +:+ rest)
    with ((m +:+ String quote "") +:+ String (ascii_of_nat 10) rest)
    by (rewrite append_assoc; reflexivity).
  rewrite non_space_run_stop; [| | reflexivity].
  - rewrite (last_quote_end m 0 Hq).
    + simpl Nat.add. rewrite take_append. reflexivity.
    + destruct m; [congruence | simpl; lia].
  - rewrite all_chars_append, Hsp. reflexivity.
Qed.

Lemma finditer_from_miss (c : ascii) (s : string) :
  startswith literal (String c s) = false →
  finditer_from 0 (String c s) = finditer_from 0 s.
Proof.
  intros H. change (finditer_from 0 (String c s))
    with (match match_here (String c s) with
          | Some (g, len) => g :: finditer_from (len - 1) s
          | None => finditer_from 0 s
          end).
  unfold match_here. now rewrite H.
Qed.

Lemma finditer_from_hit (c : ascii) (s g : string) (len : nat) :
  match_here (String c s) = Some (g, len) →
  finditer_from 0 (String c s) = g :: finditer_from (len - 1) s.
Proof.
  intros H. change (finditer_from 0 (String c s))
    with (match match_here (String c s) with
          | Some (g, len) => g :: finditer_from (len - 1) s
          | None => finditer_from 0 s
          end).
  now rewrite H.
Qed.

(** One line of the report yields its module, then the scan goes on after
    the line. *)
Lemma finditer_mention (m rest : string) :
  module_name m = true →
  finditer (mention m +:+ rest) = m :: finditer rest.
Proof.
  intros Hm. unfold finditer, mention.
  rewrite !append_assoc. cbn [String.append].
  do 21 (rewrite finditer_from_miss by reflexivity).
  rewrite (finditer_from_hit _ _ m (String.length literal + String.length m + 1));
    [| exact (match_here_mention m rest Hm)].
  f_equal.
  transitivity (finditer_from 0 (nl +:+ rest)).
  - rewrite <- (finditer_from_skip ("o module named '" +:+ m +:+ "'") (nl +:+ rest) 0).
    rewrite !append_assoc, !length_append. cbn [String.append String.length literal].
    f_equal. lia.
  - apply finditer_from_miss. reflexivity.
Qed.

(** The scan of a whole report gives back its modules, one per line, in
    order and with their repetitions. *)
Lemma finditer_report (ms : list string) :
  Forall (λ m, module_name m = true) ms → finditer (report ms) = ms.
Proof.
  induction 1 as [|m ms Hm _ IH]; [reflexivity |].
  cbn [report]. rewrite finditer_mention by assumption. now rewrite IH.
Qed.

End ModulePatternFacts.

(** ** Remediation of missing modules *)
Module RemediationFacts.
Import PyStr ModulePattern Remediation Inputs PyStrFacts ModulePatternFacts.

Lemma pip_installs_install_one (m : string) (acts : list action) :
  pip_installs (install_one m ++ acts) = m :: pip_installs acts.
Proof. reflexivity. Qed.

(** One installation is attempted per match, in the order of the matches. *)
Lemma pip_installs_flat_map (ms : list string) :
  pip_installs (flat_map install_one ms) = ms.
Proof.
  induction ms as [|m ms IH]; [reflexivity |].
  cbn [flat_map]. now rewrite pip_installs_install_one, IH.
Qed.

(** Without the marker [ModuleNotFoundError] nothing is done at all. *)
Lemma fix_module_not_found_error_no_marker (t : string) :
  contains "ModuleNotFoundError" t = false → fix_module_not_found_error t = [].
Proof. unfold fix_module_not_found_error. now intros ->. Qed.

Lemma report_has_marker (m : string) (ms : list string) :
  contains "ModuleNotFoundError" (report (m :: ms)) = true.
Proof.
  cbn [report]. unfold mention.
  change "ModuleNotFoundError: No module named '"
    with ("ModuleNotFoundError" +:+ ": No module named '").
  rewrite !append_assoc. apply contains_head.
Qed.

(** On a report of the interpreter's lines the modules installed are the
    modules of the lines, repetitions included. *)
Lemma fix_module_not_found_error_report (ms : list string) :
  Forall (λ m, module_name m = true) ms →
  pip_installs (fix_module_not_found_error (report ms)) = ms.
Proof.
  intros Hms. destruct ms as [|m ms]; [reflexivity |].
  unfold fix_module_not_found_error.
  rewrite report_has_marker, finditer_report by assumption.
  apply pip_installs_flat_map.
Qed.

(** C1, as amended. When the report holds the marker [ModuleNotFoundError]
    and its matches of [No module named 'X'] name exactly the modules [foo]
    and [bar], the modules whose installation is attempted are exactly [foo]
    and [bar]; there is one attempt per match, in the order of the matches,
    each followed by its log entry, so a module named [k] times is installed
    [k] times. *)
Theorem fix_module_not_found_error_installs_each_mention (t : string) :
  contains "ModuleNotFoundError" t = true →
  (∀ m, m ∈ finditer t ↔ m = "foo" ∨ m = "bar") →
  fix_module_not_found_error t = flat_map install_one (finditer t)
  ∧ pip_installs (fix_module_not_found_error t) = finditer t
  ∧ (∀ m, m ∈ pip_installs (fix_module_not_found_error t) ↔ m = "foo" ∨ m = "bar")
  ∧ (∀ m, count_occ String.string_dec (pip_installs (fix_module_not_found_error t)) m
          = count_occ String.string_dec (finditer t) m).
Proof.
  intros Hmark Hset. unfold fix_module_not_found_error. rewrite Hmark.
  rewrite pip_installs_flat_map. repeat split; auto; apply Hset.
Qed.

(** The report [foo, bar, foo]: three attempts for two modules. *)
Lemma fix_module_not_found_error_installs_each_mention_witness :
  let t := report ["foo"; "bar"; "foo"] in
  contains "ModuleNotFoundError" t = true
  ∧ pip_installs (fix_module_not_found_error t) = ["foo"; "bar"; "foo"]
  ∧ (∀ m, m ∈ pip_installs (fix_module_not_found_error t) ↔ m = "foo" ∨ m = "bar").
Proof.
  intros t.
  assert (Hmark : contains "ModuleNotFoundError" t = true) by reflexivity.
  assert (Hset : ∀ m, m ∈ finditer t ↔ m = "foo" ∨ m = "bar").
  { intros m. change (finditer t) with ["foo"; "bar"; "foo"].
    rewrite !elem_of_cons, elem_of_nil. tauto. }
  destruct (fix_module_not_found_error_installs_each_mention t Hmark Hset)
    as (_ & Hlist & Hmem & _).
  split; [exact Hmark | split; [exact Hlist | exact Hmem]].
Defined.

(** C1 as stated fails: in this report the matches name [foo] and [bar] and
    nothing else, yet [foo] is installed twice. *)
Lemma fix_module_not_found_error_repeats :
  let t := report ["foo"; "foo"; "bar"] in
  t = "ModuleNotFoundError: No module named 'foo'" +:+ nl +:+
      "ModuleNotFoundError: No module named 'foo'" +:+ nl +:+
      "ModuleNotFoundError: No module named 'bar'" +:+ nl
  ∧ (∀ m, m ∈ finditer t ↔ m = "foo" ∨ m = "bar")
  ∧ pip_installs (fix_module_not_found_error t) = ["foo"; "foo"; "bar"]
  ∧ ¬ (pip_installs (fix_module_not_found_error t) ≡ₚ ["foo"; "bar"]).
Proof.
  intros t. split; [reflexivity |]. split; [| split].
  - intros m. change (finditer t) with ["foo"; "foo"; "bar"].
    rewrite !elem_of_cons, elem_of_nil. tauto.
  - reflexivity.
  - change (pip_installs (fix_module_not_found_error t)) with ["foo"; "foo"; "bar"].
    intros H. apply Permutation_length in H. discriminate.
Qed.

End RemediationFacts.

(** ** The build validator *)
Module BuildValidatorFacts.
Import PyStr BuildValidator Env Inputs Examples PyStrFacts.

Ltac eff_simpl :=
  unfold mbind, mret, eff_bind, eff_ret, perform, raise in *;
  cbn -[contains lower replace String.append] in *.

(** A fresh [Popen] object has no return code yet. *)
Lemma spawn_returncode (w : child) (command : string) (acts : list action) (p : Popen) :
  spawn w command = (acts, Ok p) → returncode p = None.
Proof.
  unfold spawn. destruct (spawn_raises w); eff_simpl; [discriminate |].
  now intros [= _ <-].
Qed.

(** Once the child is spawned the verdict is asked for with the return code
    [None], whatever the child did. *)
Lemma exist_bugs_try_spawned (d : string) (w : child) :
  spawn_raises w = None →
  exist_bugs_try d w
  = (perform (Spawn (command_of d));; perform (Sleep 3);;
     (if decide (exit_status w = None) then killpg w else mret tt);;
     classify d None w).
Proof.
  intros Hs. unfold exist_bugs_try, spawn, command_of. rewrite Hs.
  eff_simpl. reflexivity.
Qed.

Lemma exist_bugs_try_spawn_raises (d : string) (w : child) (e : exn) :
  spawn_raises w = Some e → exist_bugs_try d w = ([], Raise e).
Proof. intros Hs. unfold exist_bugs_try, spawn. rewrite Hs. reflexivity. Qed.

(** The verdict when the return code read is not zero, as a function of the
    captured text. *)
Lemma classify_stderr (d : string) (rc : option Z) (w : child) (err : string) :
  rc ≠ Some 0%Z →
  stderr_read w = Ok err →
  classify d rc w
  = ([], Ok (if String.eqb err "" then Some (false, success_info)
             else if contains "traceback" (lower err)
                  then Some (true, replace (d +:+ "/") "" err)
                  else None)).
Proof.
  intros Hrc Herr. unfold classify, read_stderr. rewrite Herr.
  destruct (decide (rc = Some 0%Z)); [contradiction |].
  change (lower "Traceback") with "traceback".
  eff_simpl. destruct (String.eqb err ""); cbn [negb]; [reflexivity |].
  destruct (contains "traceback" (lower err)); reflexivity.
Qed.

(** Every handler answers with a text that holds [str(e)]. *)
Lemma handler_message (acts : list action) (w : child) (self : ChatEnv) (e : exn) :
  exist_bugs_try (directory (env_dict self)) w = (acts, Raise e) →
  ∃ msg, exist_bugs self w = (acts, Ok (true, msg))
         ∧ contains (str_exn e) msg = true.
Proof.
  intros Htry. unfold exist_bugs. rewrite Htry.
  destruct e; eexists; (split; [reflexivity | apply contains_tail]).
Qed.

(** When nothing raises, the result is a function of the captured text,
    and the kill is the only trace of the child's fate. *)
Lemma exist_bugs_spawned (self : ChatEnv) (w : child) (err : string) :
  spawn_raises w = None →
  (exit_status w = None → kill_raises w = None) →
  stderr_read w = Ok err →
  let d := directory (env_dict self) in
  exist_bugs self w
  = ([Spawn (command_of d); Sleep 3]
       ++ (if decide (exit_status w = None) then [Killpg] else []),
     Ok (if contains "traceback" (lower err)
         then (true, replace (d +:+ "/") "" err)
         else (false, success_info))).
Proof.
  intros Hs Hk Herr d. unfold exist_bugs. fold d.
  rewrite (exist_bugs_try_spawned d w Hs).
  rewrite (classify_stderr d None w err ltac:(discriminate) Herr).
  unfold killpg.
  destruct (decide (exit_status w = None)) as [Hst|Hst]; [rewrite (Hk Hst) |];
    (destruct (String.eqb_spec err "") as [-> |];
       [| destruct (contains "traceback" (lower err))]); reflexivity.
Qed.

(** C3, as amended. No call raises, and the child is still running after
    the sleep or has exited with a code other than zero. A child still
    running has its process group sent SIGTERM, an exited one has not. In
    both cases the verdict then comes from the captured standard error: if
    it holds the traceback marker, in any letter case, the result is
    [(True, text)] where [text] is the captured text with every occurrence
    of the directory and its slash removed; if it is empty or holds no
    marker, the result is [(False, success_info)]. *)
Theorem exist_bugs_classification (self : ChatEnv) (w : child) (err : string) :
  spawn_raises w = None →
  (exit_status w = None → kill_raises w = None) →
  stderr_read w = Ok err →
  exit_status w ≠ Some 0%Z →
  let d := directory (env_dict self) in
  let verdict :=
    if contains "traceback" (lower err)
    then (true, replace (d +:+ "/") "" err)
    else (false, success_info) in
  (err = "" → verdict = (false, success_info))
  ∧ (exit_status w = None →
     exist_bugs self w = ([Spawn (command_of d); Sleep 3; Killpg], Ok verdict))
  ∧ (exit_status w ≠ None →
     exist_bugs self w = ([Spawn (command_of d); Sleep 3], Ok verdict)).
Proof.
  intros Hs Hk Herr Hnz d verdict. split; [now intros -> |].
  pose proof (exist_bugs_spawned self w err Hs Hk Herr) as Heq.
  cbv zeta in Heq. fold d in Heq. fold verdict in Heq.
  split; intros Hst; rewrite Heq;
    destruct (decide (exit_status w = None)); try contradiction; reflexivity.
Qed.

(** A crash with a traceback is a bug, told without the directory. *)
Lemma exist_bugs_classification_witness :
  exist_bugs env1 crashed
  = ([Spawn "cd /w/proj; ls -l; python3 main.py;"; Sleep 3],
     Ok (true, replace "/w/proj/" "" traceback)).
Proof.
  assert (Hnone : exit_status crashed ≠ None) by discriminate.
  destruct (exist_bugs_classification env1 crashed traceback
              eq_refl ltac:(discriminate) eq_refl ltac:(discriminate))
    as (_ & _ & Hexited).
  exact (Hexited Hnone).
Defined.

(** C3 as stated fails: a child still running after the sleep whose
    standard error holds a traceback is killed and reported as a bug. *)
Lemma exist_bugs_alive_reported :
  exit_status alive_with_traceback = None
  ∧ exist_bugs env1 alive_with_traceback
    = ([Spawn "cd /w/proj; ls -l; python3 main.py;"; Sleep 3; Killpg],
       Ok (true, replace "/w/proj/" "" traceback))
  ∧ snd (exist_bugs env1 alive_with_traceback) ≠ Ok (false, success_info).
Proof. repeat split. discriminate. Qed.

(** C4. [exist_bugs] always returns: whatever the spawn, the kill or the
    read of the pipe raises ends in one of the two handlers, and the result
    is then [(True, message)] with a message that holds the text of the
    exception. *)
Theorem exist_bugs_never_raises (self : ChatEnv) (w : child) :
  (∃ acts v, exist_bugs self w = (acts, Ok v))
  ∧ (∀ acts e, exist_bugs_try (directory (env_dict self)) w = (acts, Raise e) →
       ∃ msg, exist_bugs self w = (acts, Ok (true, msg))
              ∧ contains (str_exn e) msg = true)
  ∧ (∀ e, spawn_raises w = Some e →
       exist_bugs_try (directory (env_dict self)) w = ([], Raise e))
  ∧ (∀ e, spawn_raises w = None → exit_status w = None → kill_raises w = Some e →
       ∃ acts, exist_bugs_try (directory (env_dict self)) w = (acts, Raise e))
  ∧ (∀ e, spawn_raises w = None → (exit_status w = None → kill_raises w = None) →
       stderr_read w = Raise e →
       ∃ acts, exist_bugs_try (directory (env_dict self)) w = (acts, Raise e)).
Proof.
  set (d := directory (env_dict self)).
  split; [| split; [| split; [| split]]].
  - destruct (exist_bugs_try d w) as [acts [[v|]|e]] eqn:Htry.
    + exists acts, v. unfold exist_bugs. fold d. now rewrite Htry.
    + exists acts, (false, success_info). unfold exist_bugs. fold d. now rewrite Htry.
    + destruct (handler_message acts w self e Htry) as (msg & -> & _). eauto.
  - intros acts e. apply handler_message.
  - intros e. apply exist_bugs_try_spawn_raises.
  - intros e Hs Hst Hk. rewrite (exist_bugs_try_spawned d w Hs), Hst.
    unfold killpg. rewrite Hk. eff_simpl. eauto.
  - intros e Hs Hk Herr. rewrite (exist_bugs_try_spawned d w Hs).
    unfold classify, read_stderr, killpg. rewrite Herr.
    destruct (decide (exit_status w = None)) as [Hst|Hst];
      [rewrite (Hk Hst) |]; eff_simpl; eauto.
Qed.

(** A spawn that fails is reported, not raised. *)
Lemma exist_bugs_never_raises_witness :
  ∃ msg, exist_bugs env1 no_shell = ([], Ok (true, msg))
         ∧ contains "[Errno 2] No such file or directory: '/bin/sh'" msg = true.
Proof.
  destruct (exist_bugs_never_raises env1 no_shell) as (_ & Hcaught & Hspawn & _).
  exact (Hcaught [] _ (Hspawn _ eq_refl)).
Defined.

(** C10. After a spawn that succeeded, [return_code] is read from a [Popen]
    object that was never polled, so it is [None]: the verdict is computed
    by [classify] with the return code [None], its zero branch is never
    taken, and two children that differ only in their exit status get the
    same result. A child that exited with zero after writing a traceback is
    a bug like any other. *)
Theorem exist_bugs_ignores_exit_status (self : ChatEnv) (w w' : child) :
  spawn_raises w = None →
  kill_raises w = None →
  same_but_status w w' →
  let d := directory (env_dict self) in
  (∀ acts p, spawn w (command_of d) = (acts, Ok p) → returncode p = None)
  ∧ exist_bugs_try d w
    = (perform (Spawn (command_of d));; perform (Sleep 3);;
       (if decide (exit_status w = None) then killpg w else mret tt);;
       classify d None w)
  ∧ snd (exist_bugs self w) = snd (exist_bugs self w')
  ∧ (∀ err, stderr_read w = Ok err → contains "traceback" (lower err) = true →
       snd (exist_bugs self w) = Ok (true, replace (d +:+ "/") "" err)).
Proof.
  intros Hs Hk (Hs' & Hk' & Hrd) d.
  split; [intros acts p; apply spawn_returncode |].
  split; [now apply exist_bugs_try_spawned |].
  assert (Hany : ∀ v : child, spawn_raises v = None → kill_raises v = None →
            snd (exist_bugs self v) = snd (handlers (classify d None v))).
  { intros v Hvs Hvk. unfold exist_bugs. fold d.
    rewrite (exist_bugs_try_spawned d v Hvs). unfold killpg. rewrite Hvk.
    destruct (classify d None v) as [acts [[r|]|[]]];
      destruct (decide (exit_status v = None)); reflexivity. }
  split.
  - rewrite (Hany w Hs Hk), (Hany w') by congruence.
    unfold classify, read_stderr. now rewrite Hrd.
  - intros err Herr Htb.
    rewrite (exist_bugs_spawned self w err Hs (λ _, Hk) Herr). fold d.
    now rewrite Htb.
Qed.

(** Exit status 0 and exit status 1 are told apart by nothing. *)
Lemma exist_bugs_ignores_exit_status_witness :
  snd (exist_bugs env1 zero_with_traceback) = snd (exist_bugs env1 crashed)
  ∧ snd (exist_bugs env1 zero_with_traceback)
    = Ok (true, replace "/w/proj/" "" traceback).
Proof.
  destruct (exist_bugs_ignores_exit_status env1 zero_with_traceback crashed
              eq_refl eq_refl (conj eq_refl (conj eq_refl eq_refl)))
    as (_ & _ & Hsame & Hbug).
  split; [exact Hsame | exact (Hbug traceback eq_refl eq_refl)].
Defined.

End BuildValidatorFacts.

(** ** The environment: directory and roster *)
Module EnvFacts.
Import PyStr Env Inputs Examples.

Lemma length_zero_empty (s : string) : (String.length s =? 0)%nat = true ↔ s = "".
Proof. destruct s; simpl; split; congruence. Qed.

(** A call that passes the assertion binds the directory it was given. *)
Lemma set_directory_binds (self : ChatEnv) (d : string) (w : fs) (self' : ChatEnv)
    (acts : list action) :
  set_directory self d w = (self', (acts, Ok tt)) →
  directory (env_dict self) = "" ∧ directory (env_dict self') = d.
Proof.
  unfold set_directory.
  destruct (String.length (directory (env_dict self)) =? 0)%nat eqn:Hlen;
    cbn [negb]; [| discriminate].
  intros [= <- _]. split; [now apply length_zero_empty | reflexivity].
Qed.

(** With a directory bound the assertion fails and nothing is touched. *)
Lemma set_directory_bound (self : ChatEnv) (d : string) (w : fs) :
  directory (env_dict self) ≠ "" →
  set_directory self d w = (self, ([], Raise AssertionError)).
Proof.
  intros Hd. unfold set_directory.
  destruct (String.length (directory (env_dict self)) =? 0)%nat eqn:Hlen;
    [| reflexivity].
  now apply length_zero_empty in Hlen.
Qed.

(** C5. After a call of [set_directory] that bound a non-empty directory,
    any second call fails with [AssertionError], does nothing to the file
    system, and leaves the environment, the bound directory included, as
    the first call left it. *)
Theorem set_directory_once (self self1 : ChatEnv) (d1 d2 : string) (w1 w2 : fs)
    (acts1 : list action) :
  set_directory self d1 w1 = (self1, (acts1, Ok tt)) →
  d1 ≠ "" →
  set_directory self1 d2 w2 = (self1, ([], Raise AssertionError))
  ∧ directory (env_dict (fst (set_directory self1 d2 w2))) = d1.
Proof.
  intros Hfirst Hd1.
  destruct (set_directory_binds _ _ _ _ _ Hfirst) as [_ Hbound].
  rewrite set_directory_bound by congruence. split; [reflexivity | exact Hbound].
Qed.

Lemma set_directory_once_witness :
  set_directory env1 "/w/other" fs0 = (env1, ([], Raise AssertionError))
  ∧ directory (env_dict (fst (set_directory env1 "/w/other" fs0))) = "/w/proj".
Proof.
  apply (set_directory_once env0 env1 "/w/proj" "/w/other" fs0 fs0
           [Rmtree "/w/proj"; Mkdir "/w/proj"; Print "/w/proj Created"]).
  - reflexivity.
  - discriminate.
Defined.

(** Recruitment never raises. *)
Lemma recruit_ok (self : ChatEnv) (name : string) :
  ∃ acts, snd (recruit self name) = (acts, Ok tt).
Proof.
  unfold recruit, _recruit. destruct (decide (name ∈ roster self)); eauto.
Qed.

Lemma recruit_roster (self : ChatEnv) (name : string) :
  roster (fst (recruit self name)) = {[name]} ∪ roster self.
Proof.
  unfold recruit, _recruit. destruct (decide (name ∈ roster self)); simpl;
    [| reflexivity].
  symmetry. apply subseteq_union_1_L. now apply singleton_subseteq_l.
Qed.

End EnvFacts.

(** ** Laws of [eff] *)
Module EffFacts.

Lemma bind_ret_l {A B : Type} (a : A) (f : A → eff B) : mret a ≫= f = f a.
Proof. unfold mbind, mret, eff_bind, eff_ret. now destruct (f a). Qed.

Lemma getitem_Some {A : Type} (key : string) (v : A) : getitem key (Some v) = mret v.
Proof. reflexivity. Qed.

End EffFacts.

(** ** The chain *)
Module ChainFacts.
Import PyStr Env Chain Inputs Examples PyStrFacts EffFacts EnvFacts.

Ltac eff_simpl :=
  unfold mbind, mret, eff_bind, eff_ret, perform, raise, getitem in *;
  cbn -[String.append String.eqb lookup] in *.

(** *** Recruitment *)

Lemma recruit_each_roster (e : ChatEnv) (employees : list string) :
  ∃ acts, snd (recruit_each e employees) = (acts, Ok tt)
          ∧ roster (fst (recruit_each e employees)) = list_to_set employees ∪ roster e.
Proof.
  revert e; induction employees as [|employee rest IH]; intros e.
  - exists []. split; [reflexivity |]. cbn. now rewrite (left_id_L ∅ (∪)).
  - cbn [recruit_each].
    destruct (recruit_ok e employee) as [acts Hok].
    pose proof (recruit_roster e employee) as Hr.
    destruct (recruit e employee) as [e1 r1]. cbn in Hok, Hr. subst r1.
    destruct (IH e1) as (acts' & Hok' & Hr').
    destruct (recruit_each e1 rest) as [e2 [acts2 r2]]. cbn in Hok', Hr'.
    injection Hok' as -> ->.
    exists (acts ++ acts'). split; [reflexivity |].
    cbn. rewrite Hr', Hr. set_solver.
Qed.

(** C8. Recruiting a name a second time leaves the roster, and so its size,
    as the first recruitment left it, and returns normally;
    [make_recruitment] returns normally and leaves every configured name in
    the roster. *)
Theorem recruitment_idempotent (self : ChatChain) (e : ChatEnv) (name : string) :
  let e1 := fst (recruit e name) in
  let e2 := fst (recruit e1 name) in
  size (roster e2) = size (roster e1)
  ∧ roster e2 = roster e1
  ∧ (∃ acts, snd (recruit e1 name) = (acts, Ok tt))
  ∧ (∃ acts, snd (make_recruitment self) = (acts, Ok tt))
  ∧ (∀ employee, employee ∈ recruitments self →
       employee ∈ roster (chat_env (fst (make_recruitment self)))).
Proof.
  intros e1 e2.
  assert (Hsame : roster e2 = roster e1).
  { subst e2 e1. rewrite !recruit_roster. set_solver. }
  split; [now rewrite Hsame | split; [exact Hsame | split; [apply recruit_ok |]]].
  unfold make_recruitment.
  destruct (recruit_each_roster (chat_env self) (recruitments self))
    as (acts & Hok & Hr).
  destruct (recruit_each (chat_env self) (recruitments self)) as [e' r].
  cbn in Hok, Hr |- *. split; [eauto |].
  intros employee Hin. rewrite Hr. set_solver.
Qed.

(** The configured list names the programmer twice: the roster has two
    members. *)
Lemma recruitment_idempotent_witness :
  let self := init config0 ∅ ∅ in
  "Programmer" ∈ roster (chat_env (fst (make_recruitment self)))
  ∧ size (roster (chat_env (fst (make_recruitment self)))) = 2.
Proof.
  intros self.
  destruct (recruitment_idempotent self env0 "Programmer") as (_ & _ & _ & _ & Hall).
  split.
  - apply Hall. cbn. set_solver.
  - vm_compute. reflexivity.
Defined.

(** *** Dispatch of one step *)

Lemma init_turn_limit (cfg : ChatChainConfig) (instances : gmap string SimplePhase)
    (composed : gmap string module_attr) :
  chat_turn_limit_default (init cfg instances composed) = 10%Z.
Proof. reflexivity. Qed.

(** A step changes the environment of the chain and nothing else. *)
Lemma execute_step_frame (self self' : ChatChain) (item : phase_item)
    (acts : list action) :
  execute_step self item = (acts, Ok self') →
  ∃ e, self' = with_chat_env self e.
Proof.
  unfold execute_step. destruct item as [ph ty mts nr cn co]. eff_simpl.
  destruct ph as [name|]; [| discriminate].
  destruct ty as [ty|]; [| discriminate]. eff_simpl.
  destruct (String.eqb ty "SimplePhase").
  - destruct mts as [n|]; [| discriminate].
    destruct nr as [r|]; [| discriminate]. eff_simpl.
    destruct (phases self !! name) as [instance|]; [| discriminate].
    destruct (execute instance _ _ _) as [a [e|ex]]; [| discriminate].
    intros [= _ <-]. eauto.
  - destruct (String.eqb ty "ComposedPhase"); [| discriminate].
    destruct cn as [n|]; [| discriminate].
    destruct co as [c|]; [| discriminate]. eff_simpl.
    destruct (compose_phase_module self !! name) as [[|call]|]; try discriminate.
    destruct (call _ _ _ _) as [a [e|ex]]; [| discriminate].
    intros [= _ <-]. eauto.
Qed.

Lemma execute_steps_frame (items : list phase_item) (self self' : ChatChain)
    (r : eff unit) :
  execute_steps self items = (self', r) →
  phases self' = phases self
  ∧ compose_phase_module self' = compose_phase_module self
  ∧ chat_turn_limit_default self' = chat_turn_limit_default self
  ∧ chain self' = chain self.
Proof.
  revert self self' r; induction items as [|item rest IH]; intros self self' r.
  - intros [= <- _]. auto.
  - cbn [execute_steps].
    destruct (execute_step self item) as [acts [self1|ex]] eqn:Hstep.
    + destruct (execute_step_frame _ _ _ _ Hstep) as [e ->].
      destruct (execute_steps (with_chat_env self e) rest) as [s2 [a2 r2]] eqn:Hrest.
      intros [= <- _]. apply (IH _ _ _ Hrest).
    + intros [= <- _]. auto.
Qed.

(** The default of 10 that [__init__] sets is the default at every step
    of the run. *)
Lemma turn_limit_default_kept (cfg : ChatChainConfig)
    (instances : gmap string SimplePhase) (composed : gmap string module_attr)
    (items : list phase_item) (self' : ChatChain) (r : eff unit) :
  execute_steps (init cfg instances composed) items = (self', r) →
  chat_turn_limit_default self' = 10%Z.
Proof.
  intros Hrun. destruct (execute_steps_frame _ _ _ _ Hrun) as (_ & _ & Hdef & _).
  now rewrite Hdef.
Qed.

(** A step that does not resolve raises at once, before anything is done. *)
Lemma execute_step_unresolved (self : ChatChain) (item : phase_item) (name : string)
    (ex : exn) :
  unresolved self item name ex → execute_step self item = ([], Raise ex).
Proof.
  intros H; unfold execute_step;
    destruct H as [name n r Hp Ht Hm Hr Hl | name n c Hp Ht Hn Hc Hl | name n c Hp Ht Hn Hc Hl].
  - rewrite Hp, Ht, Hm, Hr, !getitem_Some, !bind_ret_l. cbn [String.eqb Ascii.eqb Bool.eqb].
    rewrite ?bind_ret_l. now rewrite Hl.
  - rewrite Hp, Ht, Hn, Hc, !getitem_Some, !bind_ret_l. cbn [String.eqb Ascii.eqb Bool.eqb].
    rewrite ?bind_ret_l. now rewrite Hl.
  - rewrite Hp, Ht, Hn, Hc, !getitem_Some, !bind_ret_l. cbn [String.eqb Ascii.eqb Bool.eqb].
    rewrite ?bind_ret_l. now rewrite Hl.
Qed.

(** C6. A [SimplePhase] step whose phase is registered runs that phase's
    [execute] on the environment of the chain with, as turn bound, the
    configured [max_turn_step] when it is positive and 10, the default that
    [__init__] sets, when it is zero or negative. *)
Theorem simple_phase_turn_bound (self : ChatChain) (item : phase_item)
    (name r : string) (n : Z) (instance : SimplePhase) :
  chat_turn_limit_default self = 10%Z →
  phase item = Some name →
  phaseType item = Some "SimplePhase" →
  max_turn_step item = Some n →
  need_reflect item = Some r →
  phases self !! name = Some instance →
  execute_step self item
  = (e ← execute instance (chat_env self) (if (0 <? n)%Z then n else 10%Z) (check_bool r);
     mret (with_chat_env self e))
  ∧ ((0 < n)%Z → turn_limit self n = n)
  ∧ ((n ≤ 0)%Z → turn_limit self n = 10%Z).
Proof.
  intros Hdef Hp Ht Hm Hr Hl.
  assert (Hlim : turn_limit self n = if (0 <? n)%Z then n else 10%Z).
  { unfold turn_limit. rewrite Hdef.
    destruct (Z.leb_spec n 0), (Z.ltb_spec 0 n); try reflexivity; lia. }
  split; [| split].
  - unfold execute_step.
    rewrite Hp, Ht, Hm, Hr, !getitem_Some, !bind_ret_l. cbn [String.eqb Ascii.eqb Bool.eqb].
    rewrite ?bind_ret_l, Hl, Hlim. reflexivity.
  - intros Hpos. rewrite Hlim. destruct (Z.ltb_spec 0 n); [reflexivity | lia].
  - intros Hneg. rewrite Hlim. destruct (Z.ltb_spec 0 n); [lia | reflexivity].
Qed.

(** [Draft] with [max_turn_step] 0 is told to stop after 10 turns. *)
Lemma simple_phase_turn_bound_witness :
  execute_step chain1 (simple "Draft" 0)
  = ([Log "Draft, at most 10 turns"],
     Ok (with_chat_env chain1 (with_ideas env0 "a snake game"))).
Proof.
  destruct (simple_phase_turn_bound chain1 (simple "Draft" 0) "Draft" "False" 0 draft
              eq_refl eq_refl eq_refl eq_refl eq_refl eq_refl) as [Hrun _].
  rewrite Hrun. reflexivity.
Defined.

(** *** Failures of the dispatch *)

Lemma simple_not_type (name ty : string) :
  simple_not_implemented name ≠ type_not_implemented ty.
Proof. unfold simple_not_implemented, type_not_implemented. cbn. discriminate. Qed.

Lemma composed_not_type (name ty : string) :
  composed_not_implemented name ≠ type_not_implemented ty.
Proof. unfold composed_not_implemented, type_not_implemented. cbn. discriminate. Qed.

Lemma unresolved_names_phase (self : ChatChain) (item : phase_item) (name : string)
    (ex : exn) :
  unresolved self item name ex →
  phase item = Some name ∧ contains name (str_exn ex) = true.
Proof.
  intros H; destruct H; (split; [assumption |]); cbn [str_exn];
    apply contains_middle.
Qed.

Lemma unresolved_not_type (self : ChatChain) (item : phase_item) (name : string)
    (ex : exn) :
  unresolved self item name ex →
  (∀ ty, ex ≠ RuntimeError (type_not_implemented ty)) ∧ (∀ key, ex ≠ KeyError key).
Proof.
  intros H; destruct H; split; intros x [= Heq]; try discriminate;
    revert Heq; (apply simple_not_type || apply composed_not_type).
Qed.

Lemma execute_step_unknown_type (self : ChatChain) (item : phase_item)
    (name ty : string) :
  phase item = Some name →
  phaseType item = Some ty →
  ty ≠ "SimplePhase" →
  ty ≠ "ComposedPhase" →
  execute_step self item = ([], Raise (RuntimeError (type_not_implemented ty))).
Proof.
  intros Hp Ht Hs Hc. unfold execute_step.
  rewrite Hp, Ht, !getitem_Some, !bind_ret_l.
  apply String.eqb_neq in Hs, Hc. now rewrite Hs, Hc.
Qed.

(** C7, as amended. A [SimplePhase] step whose phase is not registered
    in [self.phases], and a [ComposedPhase] step whose attribute in the
    module of composed phases is falsy, fail at once with a [RuntimeError]
    whose message names the phase; nothing is done, no phase is called, and
    the run of the chain ends there with that exception. A step whose
    [phaseType] is neither [SimplePhase] nor [ComposedPhase] fails at once
    with a [RuntimeError] whose message names the type. The two failures
    have the same class, [RuntimeError], and never the same message. *)
Theorem execute_step_runtime_errors (self : ChatChain) (item : phase_item) :
  (∀ name n r,
     phase item = Some name → phaseType item = Some "SimplePhase" →
     max_turn_step item = Some n → need_reflect item = Some r →
     phases self !! name = None →
     execute_step self item = ([], Raise (RuntimeError (simple_not_implemented name)))
     ∧ (∀ rest, execute_steps self (item :: rest)
                = (self, ([], Raise (RuntimeError (simple_not_implemented name)))))
     ∧ contains name (simple_not_implemented name) = true)
  ∧ (∀ name n c,
     phase item = Some name → phaseType item = Some "ComposedPhase" →
     cycleNum item = Some n → Composition item = Some c →
     compose_phase_module self !! name = Some Falsy →
     execute_step self item = ([], Raise (RuntimeError (composed_not_implemented name)))
     ∧ (∀ rest, execute_steps self (item :: rest)
                = (self, ([], Raise (RuntimeError (composed_not_implemented name)))))
     ∧ contains name (composed_not_implemented name) = true)
  ∧ (∀ name ty, phase item = Some name → phaseType item = Some ty →
     ty ≠ "SimplePhase" → ty ≠ "ComposedPhase" →
     execute_step self item = ([], Raise (RuntimeError (type_not_implemented ty)))
     ∧ (∀ rest, execute_steps self (item :: rest)
                = (self, ([], Raise (RuntimeError (type_not_implemented ty)))))
     ∧ contains ty (type_not_implemented ty) = true)
  ∧ (∀ name ty,
     is_RuntimeError (RuntimeError (simple_not_implemented name)) = true
     ∧ is_RuntimeError (RuntimeError (composed_not_implemented name)) = true
     ∧ is_RuntimeError (RuntimeError (type_not_implemented ty)) = true
     ∧ simple_not_implemented name ≠ type_not_implemented ty
     ∧ composed_not_implemented name ≠ type_not_implemented ty).
Proof.
  split; [| split; [| split]].
  - intros name n r Hp Ht Hm Hr Hl.
    pose proof (execute_step_unresolved _ _ _ _
                  (unresolved_simple self item name n r Hp Ht Hm Hr Hl)) as Hstep.
    repeat split; try assumption.
    + intros rest. cbn [execute_steps]. now rewrite Hstep.
    + apply contains_middle.
  - intros name n c Hp Ht Hn Hc Hl.
    pose proof (execute_step_unresolved _ _ _ _
                  (unresolved_falsy self item name n c Hp Ht Hn Hc Hl)) as Hstep.
    repeat split; try assumption.
    + intros rest. cbn [execute_steps]. now rewrite Hstep.
    + apply contains_middle.
  - intros name ty Hp Ht Hs Hc.
    pose proof (execute_step_unknown_type self _ _ _ Hp Ht Hs Hc) as Hstep.
    repeat split; try assumption.
    + intros rest. cbn [execute_steps]. now rewrite Hstep.
    + apply contains_middle.
  - intros name ty. repeat split; try reflexivity.
    + apply simple_not_type.
    + apply composed_not_type.
Qed.

Lemma coding_unresolved :
  unresolved chain1 (simple "Coding" 5) "Coding"
    (RuntimeError "Phase 'Coding' is not yet implemented in chatdev.phase").
Proof. eapply unresolved_simple; reflexivity. Qed.

(** [Coding] was never registered: the step with that name and the rest of
    the chain are not run. *)
Lemma execute_step_runtime_errors_witness :
  execute_steps chain1 [simple "Coding" 5; simple "Draft" 1]
  = (chain1,
     ([], Raise (RuntimeError "Phase 'Coding' is not yet implemented in chatdev.phase"))).
Proof.
  destruct (execute_step_runtime_errors chain1 (simple "Coding" 5)) as [Hsimple _].
  destruct (Hsimple "Coding" 5%Z "False" eq_refl eq_refl eq_refl eq_refl eq_refl)
    as (_ & Hrun & _).
  exact (Hrun [simple "Draft" 1]).
Defined.

(** C7 as stated fails: the exception of a phase that does not resolve is
    not of a kind of its own. The step of an unregistered phase and the
    step of a misspelt [phaseType] both end in an exception whose class is
    exactly [RuntimeError], so no handler can tell them apart by class. *)
Lemma execute_step_errors_share_class :
  unresolved chain1 (simple "Coding" 5) "Coding"
    (RuntimeError "Phase 'Coding' is not yet implemented in chatdev.phase")
  ∧ execute_step chain1 (simple "Coding" 5)
    = ([], Raise (RuntimeError "Phase 'Coding' is not yet implemented in chatdev.phase"))
  ∧ execute_step chain1 MoreExamples.mistyped
    = ([], Raise (RuntimeError "PhaseType 'SimplPhase' is not yet implemented."))
  ∧ ¬ (∀ e1 e2,
         execute_step chain1 (simple "Coding" 5) = ([], Raise e1) →
         execute_step chain1 MoreExamples.mistyped = ([], Raise e2) →
         is_RuntimeError e1 ≠ is_RuntimeError e2).
Proof.
  split; [eapply unresolved_simple; reflexivity |].
  split; [reflexivity |]. split; [reflexivity |].
  intros H. now apply (H _ _ eq_refl eq_refl).
Qed.

(** *** The run of the chain *)

Lemma execute_steps_app (before after : list phase_item) (self : ChatChain) :
  execute_steps self (before ++ after)
  = match execute_steps self before with
    | (self1, (acts, Ok _)) =>
        let '(self2, (acts', r)) := execute_steps self1 after in
        (self2, (acts ++ acts', r))
    | (self1, (acts, Raise ex)) => (self1, (acts, Raise ex))
    end.
Proof.
  revert self; induction before as [|item before IH]; intros self.
  - cbn. now destruct (execute_steps self after) as [s [a r]].
  - cbn [execute_steps app].
    destruct (execute_step self item) as [acts [self1|ex]]; [| reflexivity].
    rewrite IH.
    destruct (execute_steps self1 before) as [s1 [a1 [[]|ex]]]; [| reflexivity].
    destruct (execute_steps s1 after) as [s2 [a2 r2]].
    now rewrite app_assoc.
Qed.

Lemma unresolved_same_registry (self self' : ChatChain) (item : phase_item)
    (name : string) (ex : exn) :
  phases self' = phases self →
  compose_phase_module self' = compose_phase_module self →
  unresolved self item name ex → unresolved self' item name ex.
Proof.
  intros Hph Hmod H; destruct H; econstructor; try eassumption; congruence.
Qed.

(** C2, as amended. Phase names are resolved step by step while the chain
    runs. When the steps before an unresolvable one run to their end, the
    chain is left as they made it and everything they did stays done; the
    run then stops at the unresolvable step with its exception, and no step
    after it runs. *)
Theorem execute_chain_stops_at_unresolved (self self1 : ChatChain)
    (before after : list phase_item) (bad : phase_item) (name : string) (ex : exn)
    (acts : list action) :
  chain self = before ++ bad :: after →
  execute_steps self before = (self1, (acts, Ok tt)) →
  unresolved self bad name ex →
  execute_chain self = (self1, (acts, Raise ex)).
Proof.
  intros Hchain Hbefore Hbad. unfold execute_chain.
  rewrite Hchain, execute_steps_app, Hbefore.
  destruct (execute_steps_frame _ _ _ _ Hbefore) as (Hph & Hmod & _).
  pose proof (unresolved_same_registry _ self1 _ _ _ Hph Hmod Hbad) as Hbad1.
  cbn [execute_steps]. rewrite (execute_step_unresolved _ _ _ _ Hbad1).
  now rewrite app_nil_r.
Qed.

(** [Draft] runs, [Coding] does not resolve, the last [Draft] never runs. *)
Lemma execute_chain_stops_at_unresolved_witness :
  execute_chain chain1
  = (with_chat_env chain1 (with_ideas env0 "a snake game"),
     ([Log "Draft, at most 3 turns"],
      Raise (RuntimeError "Phase 'Coding' is not yet implemented in chatdev.phase"))).
Proof.
  apply (execute_chain_stops_at_unresolved chain1 _
           [simple "Draft" 3] [simple "Draft" 1] (simple "Coding" 5) "Coding").
  - reflexivity.
  - reflexivity.
  - exact coding_unresolved.
Defined.

(** C2 as stated fails: the second step of this chain does not resolve, and
    the first step has logged and has written [ideas] all the same. *)
Lemma execute_chain_no_validation :
  unresolved chain1 (simple "Coding" 5) "Coding"
    (RuntimeError "Phase 'Coding' is not yet implemented in chatdev.phase")
  ∧ chain chain1 = [simple "Draft" 3] ++ simple "Coding" 5 :: [simple "Draft" 1]
  ∧ fst (snd (execute_chain chain1)) = [Log "Draft, at most 3 turns"]
  ∧ ideas (env_dict (chat_env (fst (execute_chain chain1)))) = "a snake game"
  ∧ ideas (env_dict (chat_env chain1)) = ""
  ∧ ¬ (fst (snd (execute_chain chain1)) = []
       ∧ chat_env (fst (execute_chain chain1)) = chat_env chain1).
Proof.
  split; [exact coding_unresolved |].
  repeat split; try reflexivity.
  intros [Hacts _]. discriminate Hacts.
Qed.

(** *** The revised task prompt *)

Lemma split_from_skip (sep s : string) (c : ascii) (k : nat) :
  split_from sep (S k) (String c s) = split_from sep k s.
Proof. reflexivity. Qed.

Lemma split_from_scan (sep s : string) (c : ascii) :
  split_from sep 0 (String c s)
  = if startswith sep (String c s)
    then ("", let '(p, ps) := split_from sep (String.length sep - 1) s in p :: ps)
    else let '(p, ps) := split_from sep 0 s in (String c p, ps).
Proof. reflexivity. Qed.

(** A text without the separator is its own single piece. *)
Lemma split_from_absent (sep s : string) :
  contains sep s = false → split_from sep 0 s = (s, []).
Proof.
  induction s as [|c s IH]; [reflexivity |].
  rewrite contains_cons. intros H. apply orb_false_iff in H as [Hhere Hlater].
  rewrite split_from_scan, Hhere, (IH Hlater). reflexivity.
Qed.

(** No occurrence of the marker starts less than six characters before
    another one. *)
Lemma marker_no_overlap (c : ascii) (pre post : string) :
  startswith "<INFO>" (String c (pre +:+ "<INFO>" +:+ post)) = true →
  (5 ≤ String.length pre)%nat.
Proof.
  intros H.
  destruct pre as [|c1 [|c2 [|c3 [|c4 [|c5 pre]]]]];
    cbn in H; rewrite ?andb_false_r in H; try discriminate H.
  cbn. lia.
Qed.

(** The last piece of the split is what follows the last marker. *)
Lemma split_from_marker (pre post : string) (skip : nat) :
  (skip ≤ String.length pre)%nat →
  contains "<INFO>" post = false →
  ∃ p ps, split_from "<INFO>" skip (pre +:+ "<INFO>" +:+ post) = (p, ps ++ [post]).
Proof.
  intros Hskip Hpost. revert skip Hskip.
  induction pre as [|c pre IH]; intros skip Hskip.
  - cbn in Hskip. replace skip with 0 by lia.
    cbn.
    rewrite (split_from_absent _ _ Hpost). now exists "", [].
  - change (String c pre +:+ "<INFO>" +:+ post)
      with (String c (pre +:+ "<INFO>" +:+ post)).
    destruct skip as [|k].
    + rewrite split_from_scan.
      destruct (startswith "<INFO>" (String c (pre +:+ "<INFO>" +:+ post))) eqn:Hsw.
      * apply marker_no_overlap in Hsw.
        destruct (IH 5 Hsw) as (p & ps & Heq).
        change (String.length "<INFO>" - 1) with 5. rewrite Heq.
        now exists "", (p :: ps).
      * destruct (IH 0 ltac:(lia)) as (p & ps & Heq). rewrite Heq.
        now exists (String c p), ps.
    + rewrite split_from_skip. apply IH. cbn in Hskip. lia.
Qed.

Lemma last_piece_split_marker (pre post : string) :
  contains "<INFO>" post = false →
  last_piece (split "<INFO>" (pre +:+ "<INFO>" +:+ post)) = post.
Proof.
  intros Hpost. unfold split, last_piece.
  destruct (split_from_marker pre post 0 ltac:(lia) Hpost) as (p & ps & ->).
  change (p :: ps ++ [post]) with ((p :: ps) ++ [post]).
  apply last_last.
Qed.

Lemma last_piece_split_absent (content : string) :
  contains "<INFO>" content = false →
  last_piece (split "<INFO>" content) = content.
Proof.
  intros H. unfold split, last_piece. now rewrite (split_from_absent _ _ H).
Qed.

(** When both calls of the session return, [self_task_improve] returns the
    revision of the assistant's text, after the two log entries. *)
Lemma self_task_improve_returns (task_prompt user_msg content : string)
    (session : RolePlaying) (acts1 acts2 : list action) :
  init_chat session (self_task_improve_prompt task_prompt) = (acts1, Ok user_msg) →
  step session user_msg true = (acts2, Ok content) →
  snd (self_task_improve task_prompt session) = Ok (revise content).
Proof.
  intros Hinit Hstep. unfold self_task_improve. rewrite Hinit.
  unfold mbind at 1, eff_bind. rewrite Hstep. reflexivity.
Qed.

(** C9, as amended. When the session answers, [self_task_improve] returns,
    without raising, the text after the last marker [<INFO>] of the
    assistant's response, or the whole response when it holds no marker, put
    in lower case and stripped of the blanks at both ends. *)
Theorem self_task_improve_revision (task_prompt user_msg content : string)
    (session : RolePlaying) (acts1 acts2 : list action) :
  init_chat session (self_task_improve_prompt task_prompt) = (acts1, Ok user_msg) →
  step session user_msg true = (acts2, Ok content) →
  (∀ pre post, content = pre +:+ "<INFO>" +:+ post →
     contains "<INFO>" post = false →
     snd (self_task_improve task_prompt session) = Ok (strip (lower post)))
  ∧ (contains "<INFO>" content = false →
     snd (self_task_improve task_prompt session) = Ok (strip (lower content))).
Proof.
  intros Hinit Hstep.
  rewrite (self_task_improve_returns _ _ _ _ _ _ Hinit Hstep). unfold revise.
  split.
  - intros pre post -> Hpost. now rewrite last_piece_split_marker.
  - intros Habsent. now rewrite last_piece_split_absent.
Qed.

(** The assistant greets before the marker and shouts after it. *)
Lemma self_task_improve_revision_witness :
  snd (self_task_improve "snake" (engineer "Sure! <INFO> Build A Snake Game. "))
  = Ok "build a snake game.".
Proof.
  destruct (self_task_improve_revision "snake" (self_task_improve_prompt "snake")
              "Sure! <INFO> Build A Snake Game. "
              (engineer "Sure! <INFO> Build A Snake Game. ") [] []
              eq_refl eq_refl) as [Hmarked _].
  exact (Hmarked "Sure! " " Build A Snake Game. " eq_refl eq_refl).
Defined.

(** C9 as stated fails: what is returned is not the text after the marker
    as it stands, nor the response as it stands when there is no marker. *)
Lemma self_task_improve_not_verbatim :
  snd (self_task_improve "snake" (engineer "<INFO> Build A Snake Game."))
  = Ok "build a snake game."
  ∧ snd (self_task_improve "snake" (engineer "<INFO> Build A Snake Game."))
    ≠ Ok " Build A Snake Game."
  ∧ snd (self_task_improve "snake" (engineer "Build A Snake Game."))
    ≠ Ok "Build A Snake Game.".
Proof. repeat split; discriminate. Qed.

End ChainFacts.

(** ** More on the remediation: what is installed, and when nothing is *)
Module RemediationEdge.
Import PyStr ModulePattern Remediation Inputs Examples PyStrFacts ModulePatternFacts
  RemediationFacts.

Lemma all_chars_take (P : ascii → bool) (k : nat) (s : string) :
  all_chars P s = true → all_chars P (take k s) = true.
Proof.
  revert k; induction s as [|c s IH]; intros [|k] H; try reflexivity.
  cbn in *. apply andb_true_iff in H as [-> H]. now apply IH.
Qed.

Lemma non_space_run_clean (s : string) :
  all_chars (λ c, negb (is_space c)) (non_space_run s) = true.
Proof.
  induction s as [|c s IH]; [reflexivity |].
  cbn. destruct (is_space c) eqn:Hc; [reflexivity |]. cbn. now rewrite Hc.
Qed.

(** The index that the backtracking settles on lies inside the run, past
    its first character. *)
Lemma last_quote_bounds (run : string) (i k : nat) :
  last_quote i run = Some k → (i ≤ k < i + String.length run)%nat ∧ k ≠ 0%nat.
Proof.
  revert i k; induction run as [|c run IH]; intros i k; [discriminate |].
  cbn [last_quote String.length].
  destruct (last_quote (S i) run) as [j|] eqn:Hj.
  - intros [= <-]. destruct (IH _ _ Hj). lia.
  - destruct (Ascii.eqb c quote && negb (i =? 0)%nat) eqn:Hc; [| discriminate].
    intros [= <-]. apply andb_true_iff in Hc as [_ Hi].
    apply negb_true_iff, Nat.eqb_neq in Hi. lia.
Qed.

Lemma take_not_empty (k : nat) (s : string) :
  k ≠ 0%nat → (k < String.length s)%nat → take k s ≠ "".
Proof. destruct k, s; cbn; intros; try lia; discriminate. Qed.

(** A match captures at least one character and no blank. *)
Lemma match_here_group (s g : string) (len : nat) :
  match_here s = Some (g, len) →
  g ≠ "" ∧ all_chars (λ c, negb (is_space c)) g = true.
Proof.
  unfold match_here. destruct (startswith literal s); [| discriminate].
  set (run := non_space_run (drop (String.length literal) s)).
  destruct (last_quote 0 run) as [k|] eqn:Hk; [| discriminate].
  intros [= <- _]. apply last_quote_bounds in Hk as [Hk Hk0]. split.
  - apply take_not_empty; [assumption | lia].
  - apply all_chars_take, non_space_run_clean.
Qed.

Lemma finditer_from_groups (s : string) (skip : nat) (g : string) :
  g ∈ finditer_from skip s →
  g ≠ "" ∧ all_chars (λ c, negb (is_space c)) g = true.
Proof.
  revert skip; induction s as [|c s IH]; intros skip; cbn [finditer_from].
  - intros H. now apply elem_of_nil in H.
  - destruct skip as [|k]; [| apply IH].
    destruct (match_here (String c s)) as [[g' len]|] eqn:Hm; [| apply IH].
    intros [-> | H]%elem_of_cons; [eapply match_here_group; eassumption |].
    eapply IH; eassumption.
Qed.

(** X1. Whatever the report, every module name that
    [fix_module_not_found_error] puts after [pip install] has at least one
    character and holds no white space. *)
Theorem pip_install_one_token (t m : string) :
  m ∈ pip_installs (fix_module_not_found_error t) →
  m ≠ "" ∧ all_chars (λ c, negb (is_space c)) m = true.
Proof.
  unfold fix_module_not_found_error.
  destruct (contains "ModuleNotFoundError" t).
  - rewrite pip_installs_flat_map. apply finditer_from_groups.
  - intros H. now apply elem_of_nil in H.
Qed.

(** After the quote the name runs on to the last quote before the blank. *)
Lemma pip_install_one_token_witness :
  let t := "ModuleNotFoundError: No module named 'a'b'c d'" in
  pip_installs (fix_module_not_found_error t) = ["a'b"]
  ∧ all_chars (λ c, negb (is_space c)) "a'b" = true.
Proof.
  intros t. split; [reflexivity |].
  apply (pip_install_one_token t "a'b"). cbn. apply elem_of_cons. now left.
Defined.

(** A text without the opening of the pattern has no match. *)
Lemma finditer_absent (s : string) :
  contains literal s = false → finditer s = [].
Proof.
  unfold finditer. induction s as [|c s IH]; [reflexivity |].
  rewrite contains_cons. intros H. apply orb_false_iff in H as [Hhere Hlater].
  rewrite finditer_from_miss by assumption. now apply IH.
Qed.

(** X2. A report that nowhere holds the text [No module named '] leads to
    no action at all, with or without the marker [ModuleNotFoundError]. *)
Theorem fix_module_not_found_error_nothing_named (t : string) :
  contains "No module named '" t = false →
  fix_module_not_found_error t = [].
Proof.
  intros H. unfold fix_module_not_found_error.
  rewrite (finditer_absent t H).
  destruct (contains "ModuleNotFoundError" t); reflexivity.
Qed.

(** Python 2 wrote the module name without quotes. *)
Lemma fix_module_not_found_error_nothing_named_witness :
  fix_module_not_found_error "ModuleNotFoundError: No module named numpy" = [].
Proof. apply fix_module_not_found_error_nothing_named. reflexivity. Defined.

End RemediationEdge.

(** ** More on the build validator *)
Module BuildValidatorEdge.
Import PyStr BuildValidator Env Inputs Examples MoreExamples PyStrFacts
  BuildValidatorFacts.

(** What [exist_bugs] does and returns, case by case on the child. *)
Lemma exist_bugs_cases (self : ChatEnv) (w : child) :
  let d := directory (env_dict self) in
  match spawn_raises w with
  | Some ex => exist_bugs_try d w = ([], Raise ex)
  | None =>
      match exit_status w, kill_raises w with
      | None, Some ex =>
          exist_bugs_try d w = ([Spawn (command_of d); Sleep 3], Raise ex)
      | st, _ =>
          let kill := match st with None => [Killpg] | Some _ => [] end in
          match stderr_read w with
          | Raise ex =>
              exist_bugs_try d w = ([Spawn (command_of d); Sleep 3] ++ kill, Raise ex)
          | Ok err =>
              exist_bugs self w
              = ([Spawn (command_of d); Sleep 3] ++ kill,
                 Ok (if contains "traceback" (lower err)
                     then (true, replace (d +:+ "/") "" err)
                     else (false, success_info)))
          end
      end
  end.
Proof.
  intros d. destruct (spawn_raises w) as [ex|] eqn:Hs.
  - now apply exist_bugs_try_spawn_raises.
  - destruct (exit_status w) as [st|] eqn:Hst.
    + destruct (stderr_read w) as [err|ex] eqn:Hrd.
      * pose proof (exist_bugs_spawned self w err Hs
                      ltac:(rewrite Hst; discriminate) Hrd) as H.
        rewrite Hst in H. destruct (kill_raises w); exact H.
      * assert (exist_bugs_try d w = ([Spawn (command_of d); Sleep 3] ++ [], Raise ex)).
        { rewrite (exist_bugs_try_spawned d w Hs), Hst.
          unfold classify, read_stderr. rewrite Hrd. reflexivity. }
        destruct (kill_raises w); assumption.
    + destruct (kill_raises w) as [ex|] eqn:Hk.
      * rewrite (exist_bugs_try_spawned d w Hs), Hst. unfold killpg. rewrite Hk.
        reflexivity.
      * destruct (stderr_read w) as [err|ex] eqn:Hrd.
        -- pose proof (exist_bugs_spawned self w err Hs (λ _, Hk) Hrd) as H.
           now rewrite Hst in H.
        -- rewrite (exist_bugs_try_spawned d w Hs), Hst.
           unfold killpg, classify, read_stderr. rewrite Hk, Hrd. reflexivity.
Qed.

Lemma exist_bugs_raised (self : ChatEnv) (w : child) (acts : list action) (ex : exn) :
  exist_bugs_try (directory (env_dict self)) w = (acts, Raise ex) →
  ∃ msg, exist_bugs self w = (acts, Ok (true, msg)).
Proof.
  intros H. destruct (handler_message acts w self ex H) as (msg & Heq & _). eauto.
Qed.

(** X3. Whenever [exist_bugs] answers that there is no bug, the message is
    the fixed success text: a result [(False, msg)] has
    [msg = success_info], whatever the child did. *)
Theorem exist_bugs_no_bug_message (self : ChatEnv) (w : child)
    (acts : list action) (msg : string) :
  exist_bugs self w = (acts, Ok (false, msg)) → msg = success_info.
Proof.
  pose proof (exist_bugs_cases self w) as H. cbv zeta in H.
  destruct (spawn_raises w); [| destruct (exit_status w), (kill_raises w)];
    try destruct (stderr_read w);
    try (apply exist_bugs_raised in H as [m ->]; intros [= _ ?]; discriminate);
    rewrite H; destruct (contains "traceback" _); intros [= _ ?]; congruence.
Qed.

(** A usage message and exit status 2: no traceback, no bug. *)
Lemma exist_bugs_no_bug_message_witness :
  ∃ acts msg, exist_bugs env1 usage_error = (acts, Ok (false, msg))
              ∧ msg = success_info.
Proof.
  exists [Spawn "cd /w/proj; ls -l; python3 main.py;"; Sleep 3], success_info.
  split; [reflexivity |].
  apply (exist_bugs_no_bug_message env1 usage_error
           [Spawn "cd /w/proj; ls -l; python3 main.py;"; Sleep 3]).
  reflexivity.
Defined.

(** X4. The process group is signalled in one situation only: the spawn
    succeeded, the child was still running after the sleep, and the call
    itself did not raise. A child that has exited is never signalled. *)
Theorem exist_bugs_kills_only_running (self : ChatEnv) (w : child) :
  Killpg ∈ fst (exist_bugs self w)
  ↔ spawn_raises w = None ∧ exit_status w = None ∧ kill_raises w = None.
Proof.
  pose proof (exist_bugs_cases self w) as H. cbv zeta in H.
  destruct (spawn_raises w) as [e0|];
    [| destruct (exit_status w) as [st|], (kill_raises w) as [e1|]];
    try destruct (stderr_read w) as [err|e2];
    try (apply exist_bugs_raised in H as [m H]);
    rewrite H; cbn [fst app];
    (split; [intros Hin | intros (? & ? & ?); try discriminate]);
    try (now auto);
    repeat (apply elem_of_cons in Hin as [Hin | Hin]; [discriminate Hin |]);
    try (now apply elem_of_nil in Hin);
    try (apply elem_of_cons; right; apply elem_of_cons; right; apply elem_of_cons; now left).
Qed.

(** *** Stripping the directory *)

Lemma replace_from_skip (old new a s : string) (k : nat) :
  replace_from old new (String.length a + k) (a +:+ s) = replace_from old new k s.
Proof. induction a as [|c a IH]; [reflexivity | exact IH]. Qed.

Lemma replace_from_scan (old new s : string) (c : ascii) :
  replace_from old new 0 (String c s)
  = if startswith old (String c s)
    then new +:+ (match old with
                  | "" => String c (replace_from old new 0 s)
                  | String _ o' => replace_from old new (String.length o') s
                  end)
    else String c (replace_from old new 0 s).
Proof. reflexivity. Qed.

(** A text that does not hold [old] is left as it is. *)
Lemma replace_absent (old new s : string) :
  contains old s = false → replace old new s = s.
Proof.
  unfold replace. induction s as [|c s IH].
  - destruct old; [discriminate | reflexivity].
  - rewrite contains_cons. intros H. apply orb_false_iff in H as [Hhere Hlater].
    rewrite replace_from_scan, Hhere, (IH Hlater). reflexivity.
Qed.

(** An occurrence at the head is replaced and the scan goes on after it. *)
Lemma replace_head (c : ascii) (old' new s : string) :
  replace (String c old') new (String c old' +:+ s)
  = new +:+ replace (String c old') new s.
Proof.
  unfold replace. change (String c old' +:+ s) with (String c (old' +:+ s)).
  rewrite replace_from_scan.
  change (String c (old' +:+ s)) with (String c old' +:+ s).
  rewrite startswith_append.
  now rewrite <- (replace_from_skip (String c old') new old' s 0), Nat.add_0_r.
Qed.

(** Before the first character that [old] starts with, nothing matches. *)
Lemma replace_before (c : ascii) (old' new a s : string) :
  all_chars (λ x, negb (Ascii.eqb x c)) a = true →
  replace (String c old') new (a +:+ s) = a +:+ replace (String c old') new s.
Proof.
  unfold replace. intros Ha. induction a as [|x a IH]; [reflexivity |].
  cbn in Ha. apply andb_true_iff in Ha as [Hx Ha]. apply negb_true_iff in Hx.
  change (String x a +:+ s) with (String x (a +:+ s)).
  rewrite replace_from_scan. cbn [startswith].
  rewrite Ascii.eqb_sym, Hx. cbn [andb]. now rewrite (IH Ha).
Qed.

(** X5. A traceback that does not mention the project directory is
    reported word for word: when nothing raises and the captured text holds
    the marker but not the directory followed by a slash, the message of
    the bug is the captured text itself. *)
Theorem exist_bugs_message_verbatim (self : ChatEnv) (w : child) (err : string) :
  spawn_raises w = None →
  (exit_status w = None → kill_raises w = None) →
  stderr_read w = Ok err →
  contains "traceback" (lower err) = true →
  contains (directory (env_dict self) +:+ "/") err = false →
  snd (exist_bugs self w) = Ok (true, err).
Proof.
  intros Hs Hk Hrd Htb Hdir.
  rewrite (exist_bugs_spawned self w err Hs Hk Hrd). cbn [snd].
  now rewrite Htb, (replace_absent _ _ _ Hdir).
Qed.

Lemma exist_bugs_message_verbatim_witness :
  snd (exist_bugs env1 crashed_in_library)
  = Ok (true, "Traceback: File /usr/lib/python3/json/decoder.py, line 355").
Proof.
  apply (exist_bugs_message_verbatim env1 crashed_in_library);
    first [reflexivity | discriminate].
Defined.

(** X6. A path under the project directory becomes relative: when the
    directory is absolute, the captured text is [a + directory + "/" + b],
    [a] holds no slash and [b] no further mention of the directory, the
    message of the bug is [a + b]. *)
Theorem exist_bugs_message_relative (self : ChatEnv) (w : child) (d' a b : string) :
  directory (env_dict self) = "/" +:+ d' →
  spawn_raises w = None →
  (exit_status w = None → kill_raises w = None) →
  stderr_read w = Ok (a +:+ ("/" +:+ d' +:+ "/") +:+ b) →
  contains "traceback" (lower (a +:+ ("/" +:+ d' +:+ "/") +:+ b)) = true →
  all_chars (λ x, negb (Ascii.eqb x "/")) a = true →
  contains ("/" +:+ d' +:+ "/") b = false →
  snd (exist_bugs self w) = Ok (true, a +:+ b).
Proof.
  intros Hd Hs Hk Hrd Htb Ha Hb.
  rewrite (exist_bugs_spawned self w _ Hs Hk Hrd). cbn [snd]. rewrite Htb, Hd.
  do 2 f_equal.
  change (("/" +:+ d') +:+ "/") with (String "/" (d' +:+ "/")).
  change ("/" +:+ d' +:+ "/") with (String "/" (d' +:+ "/")) in *.
  rewrite (replace_before "/" _ _ a _ Ha), replace_head, (replace_absent _ _ _ Hb).
  reflexivity.
Qed.

Lemma exist_bugs_message_relative_witness :
  snd (exist_bugs env1 crashed_in_project)
  = Ok (true, "Traceback: File main.py, line 1").
Proof.
  apply (exist_bugs_message_relative env1 crashed_in_project
           "w/proj" "Traceback: File " "main.py, line 1");
    first [reflexivity | discriminate].
Defined.

End BuildValidatorEdge.

(** ** More on the directory binding *)
Module EnvEdge.
Import PyStr Env Inputs Examples MoreExamples Runs PyStrFacts EnvFacts.

(** A call either fails on the assertion and changes nothing, or binds. *)
Lemma set_directory_cases (self : ChatEnv) (d : string) (w : fs) :
  (directory (env_dict self) ≠ ""
   ∧ set_directory self d w = (self, ([], Raise AssertionError)))
  ∨ (directory (env_dict self) = ""
     ∧ ∃ acts, set_directory self d w = (bind_directory self d, (acts, Ok tt))).
Proof.
  destruct (decide (directory (env_dict self) = "")) as [He|Hne].
  - right. split; [assumption |]. unfold set_directory. rewrite He. cbn. eauto.
  - left. split; [assumption |]. now apply set_directory_bound.
Qed.

(** X7. Once a non-empty directory is bound, no sequence of further calls
    of [set_directory] changes the environment in any way. *)
Theorem set_directories_bound (self : ChatEnv) (calls : list (string * fs)) :
  directory (env_dict self) ≠ "" → set_directories self calls = self.
Proof.
  intros Hd. induction calls as [|[d w] rest IH]; [reflexivity |].
  cbn [set_directories]. rewrite set_directory_bound by assumption. exact IH.
Qed.

Lemma set_directories_bound_witness :
  set_directories env1 [("/w/other", fs0); ("", fs_full); ("/w/proj", fs_none)] = env1.
Proof. apply set_directories_bound. discriminate. Defined.

(** X8. The first directory wins. The first call of [set_directory] on a
    fresh environment, with a directory that is not empty, writes it into
    [env_dict] and into the code container and the two document containers,
    and whatever calls follow, with whatever arguments, the environment
    stays the one that this first call bound. *)
Theorem set_directories_first_binding (chat_env_config : ChatEnvConfig)
    (d : string) (w : fs) (rest : list (string * fs)) :
  d ≠ "" →
  let self := set_directories (Env.init chat_env_config) ((d, w) :: rest) in
  self = bind_directory (Env.init chat_env_config) d
  ∧ directory (env_dict self) = d
  ∧ codes_directory self = Some d
  ∧ requirements_directory self = Some d
  ∧ manuals_directory self = Some d.
Proof.
  intros Hd self. subst self. cbn [set_directories].
  destruct (set_directory_cases (Env.init chat_env_config) d w)
    as [(Hne & _) | (_ & acts & ->)]; [now cbn in Hne |].
  cbn [fst]. rewrite set_directories_bound by exact Hd. now cbn.
Qed.

(** Later calls with another path, and with the empty path, change
    nothing. *)
Lemma set_directories_first_binding_witness :
  let self := set_directories (Env.init (config env_keep))
                [("/w/proj", fs_none); ("/w/other", fs_full); ("", fs_none)] in
  directory (env_dict self) = "/w/proj" ∧ codes_directory self = Some "/w/proj".
Proof.
  intros self.
  destruct (set_directories_first_binding (config env_keep) "/w/proj" fs_none
              [("/w/other", fs_full); ("", fs_none)]) as (_ & Hdir & Hcodes & _);
    [discriminate |].
  split; [exact Hdir | exact Hcodes].
Defined.

(** X9. Nothing is removed without a copy: when [set_directory] removes a
    directory that held something, it has copied it first to the sibling
    named with the time stamp. *)
Theorem set_directory_backup_first (self self' : ChatEnv) (d : string) (w : fs)
    (acts : list action) :
  set_directory self d w = (self', (acts, Ok tt)) →
  Rmtree d ∈ acts →
  listdir w d ≠ [] →
  ∃ rest, acts = Copytree d (d +:+ "." +:+ localtime w)
                 :: Print (d +:+ " Copied to " +:+ d +:+ "." +:+ localtime w)
                 :: Rmtree d :: rest.
Proof.
  unfold set_directory.
  destruct (negb _); [discriminate |]. cbn [bind_directory env_dict directory config].
  intros [= _ <-] Hrm Hne.
  destruct (clear_structure (config self)), (path_exists w d) eqn:Hex;
    cbn [andb] in *; destruct (listdir w d) as [|f fs]; try contradiction;
    cbn in Hrm |- *; eauto;
    repeat (apply elem_of_cons in Hrm as [Hrm | Hrm]; [discriminate Hrm |]);
    now apply elem_of_nil in Hrm.
Qed.

Lemma set_directory_backup_first_witness :
  snd (set_directory env0 "/w/proj" fs_full)
  = ([Copytree "/w/proj" "/w/proj.20240101120000";
      Print "/w/proj Copied to /w/proj.20240101120000";
      Rmtree "/w/proj"; Mkdir "/w/proj"; Print "/w/proj Created"], Ok tt).
Proof.
  destruct (set_directory_backup_first env0 _ "/w/proj" fs_full _ eq_refl)
    as [rest Heq]; [| discriminate | reflexivity].
  cbn. do 2 (apply elem_of_cons; right). apply elem_of_cons. now left.
Defined.

(** X10. Without [clear_structure] the call removes nothing and creates
    nothing: its only possible actions are the copy and its notice, and a
    directory that does not exist is bound without being created. *)
Theorem set_directory_keeps_structure (self : ChatEnv) (d : string) (w : fs) :
  clear_structure (config self) = false →
  (∀ a, a ∈ fst (snd (set_directory self d w)) →
        a = Copytree d (d +:+ "." +:+ localtime w)
        ∨ a = Print (d +:+ " Copied to " +:+ d +:+ "." +:+ localtime w))
  ∧ (path_exists w d = false → fst (snd (set_directory self d w)) = []).
Proof.
  intros Hclear. unfold set_directory.
  destruct (negb _); cbn [snd fst bind_directory env_dict directory config].
  - split; [intros a Ha; now apply elem_of_nil in Ha | reflexivity].
  - rewrite Hclear, app_nil_r. split.
    + intros a Ha. destruct (path_exists w d && _)%bool.
      * apply elem_of_cons in Ha as [-> | Ha]; [now left |].
        apply elem_of_cons in Ha as [-> | Ha]; [now right |].
        now apply elem_of_nil in Ha.
      * now apply elem_of_nil in Ha.
    + now intros ->.
Qed.

Lemma set_directory_keeps_structure_witness :
  set_directory env_keep "/w/proj" fs_none
  = (bind_directory env_keep "/w/proj", ([], Ok tt)).
Proof.
  destruct (set_directory_keeps_structure env_keep "/w/proj" fs_none eq_refl)
    as [_ Hnone].
  specialize (Hnone eq_refl).
  destruct (set_directory env_keep "/w/proj" fs_none) as [e [acts r]] eqn:Hcall.
  cbn in Hnone. subst acts. symmetry. rewrite <- Hcall. reflexivity.
Defined.

(** X11. The guard looks at the length of the bound path, so binding the
    empty path locks nothing. Where old files are kept ([clear_structure]
    off), a call with the empty path, which names nothing that exists,
    touches nothing on disk and returns; the assertion of a further call
    then holds whatever its directory, and that directory is written into
    [env_dict] and the three containers. *)
Theorem set_directory_empty_path (self : ChatEnv) (d : string) (w1 w2 : fs) :
  directory (env_dict self) = "" →
  clear_structure (config self) = false →
  path_exists w1 "" = false →
  let self1 := fst (set_directory self "" w1) in
  let self2 := fst (set_directory self1 d w2) in
  snd (set_directory self "" w1) = ([], Ok tt)
  ∧ snd (snd (set_directory self1 d w2)) ≠ Raise AssertionError
  ∧ directory (env_dict self2) = d
  ∧ codes_directory self2 = Some d
  ∧ requirements_directory self2 = Some d
  ∧ manuals_directory self2 = Some d.
Proof.
  intros He Hkeep Hnone self1 self2.
  assert (H1 : set_directory self "" w1 = (bind_directory self "", ([], Ok tt))).
  { unfold set_directory. rewrite He. cbn. now rewrite Hkeep, Hnone. }
  subst self2 self1. rewrite H1. cbn [fst snd].
  destruct (set_directory_cases (bind_directory self "") d w2)
    as [(Hne & _) | (_ & acts' & ->)]; [now cbn in Hne |].
  cbn. repeat split; try reflexivity. discriminate.
Qed.

Lemma set_directory_empty_path_witness :
  let self1 := fst (set_directory env_keep "" fs_none) in
  snd (set_directory env_keep "" fs_none) = ([], Ok tt)
  ∧ directory (env_dict (fst (set_directory self1 "/w/proj" fs_none))) = "/w/proj".
Proof.
  intros self1.
  destruct (set_directory_empty_path env_keep "/w/proj" fs_none fs_none
              eq_refl eq_refl eq_refl) as (Hfirst & _ & Hdir & _).
  split; [exact Hfirst | exact Hdir].
Defined.

End EnvEdge.

(** ** More on the chain *)
Module ChainEdge.
Import PyStr Env Chain Inputs Examples MoreExamples PyStrFacts EffFacts ChainFacts.

(** *** [check_bool] *)

Lemma lower_char_t (c : ascii) :
  lower_char c = "t"%char → c = "t"%char ∨ c = "T"%char.
Proof.
  destruct c as [[] [] [] [] [] [] [] []]; vm_compute; intros H;
    first [discriminate H | now left | now right].
Qed.

Lemma lower_char_r (c : ascii) :
  lower_char c = "r"%char → c = "r"%char ∨ c = "R"%char.
Proof.
  destruct c as [[] [] [] [] [] [] [] []]; vm_compute; intros H;
    first [discriminate H | now left | now right].
Qed.

Lemma lower_char_u (c : ascii) :
  lower_char c = "u"%char → c = "u"%char ∨ c = "U"%char.
Proof.
  destruct c as [[] [] [] [] [] [] [] []]; vm_compute; intros H;
    first [discriminate H | now left | now right].
Qed.

Lemma lower_char_e (c : ascii) :
  lower_char c = "e"%char → c = "e"%char ∨ c = "E"%char.
Proof.
  destruct c as [[] [] [] [] [] [] [] []]; vm_compute; intros H;
    first [discriminate H | now left | now right].
Qed.

(** X12. [check_bool] accepts the sixteen spellings of [true] in upper and
    lower case and nothing else: no blank around it, no [1], no [yes]. *)
Theorem check_bool_spellings (s : string) :
  check_bool s = true
  ↔ ∃ a b c d, s = String a (String b (String c (String d "")))
      ∧ (a = "t" ∨ a = "T")%char ∧ (b = "r" ∨ b = "R")%char
      ∧ (c = "u" ∨ c = "U")%char ∧ (d = "e" ∨ d = "E")%char.
Proof.
  unfold check_bool. rewrite String.eqb_eq. split.
  - destruct s as [|a [|b [|c [|d [|x s]]]]]; cbn [lower]; intros H;
      try discriminate H.
    injection H as Ha Hb Hc Hd. exists a, b, c, d.
    repeat split; auto using lower_char_t, lower_char_r, lower_char_u, lower_char_e.
  - intros (a & b & c & d & -> & [-> | ->] & [-> | ->] & [-> | ->] & [-> | ->]);
      reflexivity.
Qed.

(** *** Runs of steps *)

Lemma with_chat_env_same (self : ChatChain) : with_chat_env self (chat_env self) = self.
Proof. now destruct self. Qed.

Lemma execute_steps_only_env (items : list phase_item) (self : ChatChain) :
  ∃ e, fst (execute_steps self items) = with_chat_env self e.
Proof.
  revert self; induction items as [|item rest IH]; intros self.
  - exists (chat_env self). now rewrite with_chat_env_same.
  - cbn [execute_steps].
    destruct (execute_step self item) as [acts [self1|ex]] eqn:Hstep.
    + destruct (execute_step_frame _ _ _ _ Hstep) as [e ->].
      destruct (IH (with_chat_env self e)) as [e' He'].
      destruct (execute_steps (with_chat_env self e) rest) as [s2 [a2 r2]].
      cbn in He' |- *. exists e'. now rewrite He'.
    + exists (chat_env self). now rewrite with_chat_env_same.
Qed.

(** X13. Running the chain changes the environment and nothing else: the
    list of steps, the recruitments, the default turn bound, the registered
    phases and the module of composed phases are afterwards what they were,
    whether the run ended well or in an exception. *)
Theorem execute_chain_only_env (self : ChatChain) :
  let self' := fst (execute_chain self) in
  chain self' = chain self
  ∧ recruitments self' = recruitments self
  ∧ chat_turn_limit_default self' = chat_turn_limit_default self
  ∧ phases self' = phases self
  ∧ compose_phase_module self' = compose_phase_module self.
Proof.
  cbv zeta. unfold execute_chain.
  destruct (execute_steps_only_env (chain self) self) as [e ->]. now cbn.
Qed.

(** X14. Steps compose: when a first list of steps runs to its end, running
    it followed by a second list is running the second list from the chain
    that the first one left, after the actions of the first. *)
Theorem execute_steps_sequence (self self1 : ChatChain)
    (first second : list phase_item) (acts : list action) :
  execute_steps self first = (self1, (acts, Ok tt)) →
  execute_steps self (first ++ second)
  = (fst (execute_steps self1 second),
     (acts ++ fst (snd (execute_steps self1 second)),
      snd (snd (execute_steps self1 second)))).
Proof.
  intros Hfirst. rewrite execute_steps_app, Hfirst.
  now destruct (execute_steps self1 second) as [s2 [a2 r2]].
Qed.

Lemma execute_steps_sequence_witness :
  execute_steps chain1 ([simple "Draft" 3] ++ [simple "Draft" 0])
  = (with_chat_env chain1 (with_ideas (with_ideas env0 "a snake game") "a snake game"),
     ([Log "Draft, at most 3 turns"; Log "Draft, at most 10 turns"], Ok tt)).
Proof.
  rewrite (execute_steps_sequence chain1
             (with_chat_env chain1 (with_ideas env0 "a snake game"))
             [simple "Draft" 3] [simple "Draft" 0]
             [Log "Draft, at most 3 turns"] eq_refl).
  reflexivity.
Defined.

(** X15. The first step that raises ends the run, whatever it raises: its
    exception is the outcome of the run, the actions done up to it are
    kept, and the steps after it do not run. Nothing is said here of the
    environment at that point, which the failing phase has had in hand. *)
Theorem execute_steps_first_failure (self self1 : ChatChain)
    (before after : list phase_item) (item : phase_item)
    (acts acts' : list action) (ex : exn) :
  execute_steps self before = (self1, (acts, Ok tt)) →
  execute_step self1 item = (acts', Raise ex) →
  snd (execute_steps self (before ++ item :: after)) = (acts ++ acts', Raise ex).
Proof.
  intros Hbefore Hitem. rewrite execute_steps_app, Hbefore.
  cbn [execute_steps]. now rewrite Hitem.
Qed.

(** The run of [chain2]: draft, two test cycles, then the review fails
    and the last draft never runs. *)
Lemma execute_steps_first_failure_witness :
  snd (execute_chain chain2)
  = ([Log "Draft, at most 3 turns"; Log "Test: 2 cycles of 2 phases";
      Log "Review starts"],
     Raise (Exception "API timeout")).
Proof.
  apply (execute_steps_first_failure chain2
           (with_chat_env chain2 (with_ideas (with_ideas env0 "a snake game") "tested"))
           [simple "Draft" 3; composed "Test" 2 [simple "Draft" 1; simple "Review" 1]]
           [simple "Draft" 1] (simple "Review" 2)
           [Log "Draft, at most 3 turns"; Log "Test: 2 cycles of 2 phases"]
           [Log "Review starts"]); reflexivity.
Defined.

(** *** Steps that lack a key *)

(** X16. The keys of a step are read before its phase is looked up. A step
    without [phase] or [phaseType], a [SimplePhase] step without
    [max_turn_step] or [need_reflect] and a [ComposedPhase] step without
    [cycleNum] or [Composition] raise the [KeyError] of the first key that
    is missing, in that order, with no action: a registered phase does not
    run, and an unknown name is not reported. *)
Theorem execute_step_missing_key (self : ChatChain) (item : phase_item) :
  (phase item = None → execute_step self item = ([], Raise (KeyError "phase")))
  ∧ (∀ name, phase item = Some name → phaseType item = None →
       execute_step self item = ([], Raise (KeyError "phaseType")))
  ∧ (∀ name, phase item = Some name → phaseType item = Some "SimplePhase" →
       (max_turn_step item = None →
        execute_step self item = ([], Raise (KeyError "max_turn_step")))
       ∧ (∀ n, max_turn_step item = Some n → need_reflect item = None →
          execute_step self item = ([], Raise (KeyError "need_reflect"))))
  ∧ (∀ name, phase item = Some name → phaseType item = Some "ComposedPhase" →
       (cycleNum item = None →
        execute_step self item = ([], Raise (KeyError "cycleNum")))
       ∧ (∀ n, cycleNum item = Some n → Composition item = None →
          execute_step self item = ([], Raise (KeyError "Composition")))).
Proof.
  unfold execute_step. split; [| split; [| split]].
  - now intros ->.
  - intros name -> ->. now rewrite getitem_Some, bind_ret_l.
  - intros name Hp Ht. rewrite Hp, Ht. split.
    + intros ->. now rewrite !getitem_Some, !bind_ret_l.
    + intros n -> ->. now rewrite !getitem_Some, !bind_ret_l.
  - intros name Hp Ht. rewrite Hp, Ht. split.
    + intros ->. now rewrite !getitem_Some, !bind_ret_l.
    + intros n -> ->. now rewrite !getitem_Some, !bind_ret_l.
Qed.

(** [Draft] is registered, but the step does not say for how many turns. *)
Lemma execute_step_missing_key_witness :
  execute_step chain2 no_turns = ([], Raise (KeyError "max_turn_step")).
Proof.
  destruct (execute_step_missing_key chain2 no_turns) as (_ & _ & Hsimple & _).
  destruct (Hsimple "Draft" eq_refl eq_refl) as [Hturns _].
  exact (Hturns eq_refl).
Defined.

(** *** Composed phases *)

(** X17. A [ComposedPhase] step whose name is a truthy attribute of the
    module calls it with the name, the [cycleNum] and the [Composition] of
    the step, unchanged, and runs it on the environment of the chain: what
    it does are the actions of the step, the environment it returns becomes
    the environment of the chain, and what it raises is raised by the
    step. *)
Theorem execute_step_composed (self : ChatChain) (item : phase_item)
    (name : string) (n : Z) (inner : list phase_item)
    (call : string → Z → list phase_item → ChatEnv → eff ChatEnv) :
  phase item = Some name →
  phaseType item = Some "ComposedPhase" →
  cycleNum item = Some n →
  Composition item = Some inner →
  compose_phase_module self !! name = Some (Truthy call) →
  execute_step self item
  = match call name n inner (chat_env self) with
    | (acts, Ok e) => (acts, Ok (with_chat_env self e))
    | (acts, Raise ex) => (acts, Raise ex)
    end.
Proof.
  intros Hp Ht Hn Hc Hl. unfold execute_step.
  rewrite Hp, Ht, Hn, Hc, !getitem_Some, !bind_ret_l.
  cbn [String.eqb Ascii.eqb Bool.eqb]. rewrite ?bind_ret_l, Hl.
  destruct (call name n inner (chat_env self)) as [acts [e|ex]]; [| reflexivity].
  unfold mbind, eff_bind, mret, eff_ret. now rewrite app_nil_r.
Qed.

Lemma execute_step_composed_witness :
  execute_step chain2 (composed "Test" 2 [simple "Draft" 1; simple "Review" 1])
  = ([Log "Test: 2 cycles of 2 phases"],
     Ok (with_chat_env chain2 (with_ideas env0 "tested"))).
Proof.
  rewrite (execute_step_composed chain2
             (composed "Test" 2 [simple "Draft" 1; simple "Review" 1]) "Test" 2
             [simple "Draft" 1; simple "Review" 1] _
             eq_refl eq_refl eq_refl eq_refl eq_refl).
  reflexivity.
Defined.

End ChainEdge.

(** ** More on the revised task prompt *)
Module RevisionFacts.
Import PyStr Env Chain Inputs Examples MoreExamples PyStrFacts EffFacts ChainFacts.

(** *** Lower case and blanks, character by character *)

Lemma lower_char_idem (c : ascii) : lower_char (lower_char c) = lower_char c.
Proof. destruct c as [[] [] [] [] [] [] [] []]; reflexivity. Qed.

Lemma is_space_lower_char (c : ascii) : is_space (lower_char c) = is_space c.
Proof. destruct c as [[] [] [] [] [] [] [] []]; reflexivity. Qed.

Lemma lower_char_not_I (c : ascii) : Ascii.eqb (lower_char c) "I" = false.
Proof. destruct c as [[] [] [] [] [] [] [] []]; reflexivity. Qed.

Lemma lower_idem (s : string) : lower (lower s) = lower s.
Proof.
  induction s as [|c s IH]; [reflexivity |].
  cbn [lower]. now rewrite lower_char_idem, IH.
Qed.

Lemma lower_lstrip (s : string) : lower (lstrip s) = lstrip (lower s).
Proof.
  induction s as [|c s IH]; [reflexivity |].
  cbn [lower lstrip]. rewrite is_space_lower_char.
  destruct (is_space c); [exact IH | reflexivity].
Qed.

Lemma lower_rstrip (s : string) : lower (rstrip s) = rstrip (lower s).
Proof.
  induction s as [|c s IH]; [reflexivity |].
  cbn [lower rstrip]. rewrite <- IH, is_space_lower_char.
  destruct (rstrip s) as [|x r]; cbn [lower]; [| reflexivity].
  destruct (is_space c); reflexivity.
Qed.

Lemma lower_strip (s : string) : lower (strip s) = strip (lower s).
Proof. unfold strip. now rewrite lower_rstrip, lower_lstrip. Qed.

(** *** [strip] *)

Lemma rstrip_cons_kept (c : ascii) (s : string) :
  is_space c = false → rstrip (String c s) = String c (rstrip s).
Proof.
  intros Hc. cbn [rstrip]. destruct (rstrip s); [now rewrite Hc | reflexivity].
Qed.

Lemma rstrip_idem (s : string) : rstrip (rstrip s) = rstrip s.
Proof.
  induction s as [|c s IH]; [reflexivity |].
  cbn [rstrip]. destruct (rstrip s) as [|x r] eqn:Hr.
  - destruct (is_space c) eqn:Hc; [reflexivity |]. cbn. now rewrite Hc.
  - cbn [rstrip] in IH |- *. now rewrite IH.
Qed.

(** What [lstrip] returns does not start with a blank. *)
Lemma lstrip_head (s : string) :
  match lstrip s with
  | "" => True
  | String c _ => is_space c = false
  end.
Proof.
  induction s as [|c s IH]; [exact I |].
  cbn [lstrip]. destruct (is_space c) eqn:Hc; [exact IH | exact Hc].
Qed.

Lemma lstrip_kept (s : string) :
  match s with "" => True | String c _ => is_space c = false end →
  lstrip s = s.
Proof. destruct s as [|c s]; [reflexivity |]. cbn. now intros ->. Qed.

Lemma strip_idem (s : string) : strip (strip s) = strip s.
Proof.
  unfold strip. pose proof (lstrip_head s) as Hhead.
  destruct (lstrip s) as [|c t]; [reflexivity |].
  rewrite (rstrip_cons_kept c t Hhead), lstrip_kept by exact Hhead.
  rewrite <- (rstrip_cons_kept c t Hhead). apply rstrip_idem.
Qed.

(** *** No marker in lower case *)

Lemma all_chars_lstrip (P : ascii → bool) (s : string) :
  all_chars P s = true → all_chars P (lstrip s) = true.
Proof.
  induction s as [|c s IH]; [reflexivity |].
  cbn [lstrip]. destruct (is_space c); [| trivial].
  cbn. intros H. apply andb_true_iff in H as [_ H]. now apply IH.
Qed.

Lemma all_chars_rstrip (P : ascii → bool) (s : string) :
  all_chars P s = true → all_chars P (rstrip s) = true.
Proof.
  induction s as [|c s IH]; [reflexivity |].
  cbn [all_chars rstrip]. intros H. apply andb_true_iff in H as [Hc H].
  specialize (IH H). destruct (rstrip s) as [|x r].
  - destruct (is_space c); [reflexivity |]. cbn. now rewrite Hc.
  - cbn [all_chars] in IH |- *. now rewrite Hc, IH.
Qed.

Lemma all_chars_lower (s : string) :
  all_chars (λ c, negb (Ascii.eqb c "I")) (lower s) = true.
Proof.
  induction s as [|c s IH]; [reflexivity |].
  cbn. now rewrite lower_char_not_I, IH.
Qed.

Lemma no_marker_without_I (s : string) :
  all_chars (λ c, negb (Ascii.eqb c "I")) s = true → contains "<INFO>" s = false.
Proof.
  induction s as [|c s IH]; [reflexivity |].
  cbn [all_chars]. intros H. apply andb_true_iff in H as [_ H].
  rewrite contains_cons, (IH H), orb_false_r.
  destruct s as [|x s]; cbn [startswith]; [apply andb_false_r |].
  cbn [all_chars] in H. apply andb_true_iff in H as [Hx _].
  apply negb_true_iff in Hx. rewrite Ascii.eqb_sym in Hx.
  change (Ascii.eqb "I" x) with (Ascii.eqb "I"%char x) in Hx.
  cbn [andb]. destruct (Ascii.eqb "<" c); [| reflexivity].
  cbn [andb]. now rewrite Hx.
Qed.

(** X18. The revision is a fixed point of the parser: it is in lower case,
    it has no blank at either end, it holds no marker [<INFO>], and parsing
    it again gives it back. *)
Theorem revise_idempotent (content : string) :
  lower (revise content) = revise content
  ∧ strip (revise content) = revise content
  ∧ contains "<INFO>" (revise content) = false
  ∧ revise (revise content) = revise content.
Proof.
  assert (Hlow : lower (revise content) = revise content).
  { unfold revise. now rewrite lower_strip, lower_idem. }
  assert (Hstrip : strip (revise content) = revise content).
  { unfold revise. apply strip_idem. }
  assert (Hmark : contains "<INFO>" (revise content) = false).
  { apply no_marker_without_I. unfold revise, strip.
    apply all_chars_rstrip, all_chars_lstrip, all_chars_lower. }
  repeat split; try assumption.
  unfold revise at 1. rewrite (last_piece_split_absent _ Hmark), Hlow.
  exact Hstrip.
Qed.

(** *** Failures of the session *)

(** X19. A failure of the dialogue is passed on and nothing is logged for
    it: when [init_chat] raises, [step] is not called; when [step] raises,
    the two log entries are not written; in both cases the exception of the
    session is the exception of [self_task_improve]. When both return, the
    two entries follow the actions of the session. *)
Theorem self_task_improve_session (task_prompt : string) (session : RolePlaying) :
  (∀ acts ex,
     init_chat session (self_task_improve_prompt task_prompt) = (acts, Raise ex) →
     self_task_improve task_prompt session = (acts, Raise ex))
  ∧ (∀ acts acts' msg ex,
     init_chat session (self_task_improve_prompt task_prompt) = (acts, Ok msg) →
     step session msg true = (acts', Raise ex) →
     self_task_improve task_prompt session = (acts ++ acts', Raise ex))
  ∧ (∀ acts acts' msg content,
     init_chat session (self_task_improve_prompt task_prompt) = (acts, Ok msg) →
     step session msg true = (acts', Ok content) →
     self_task_improve task_prompt session
     = (acts ++ acts'
          ++ [LogAs "Prompt Engineer" content;
              Log ("**[Task Prompt Self Improvement]**" +:+ nl +:+
                   "**Original Task Prompt**: " +:+ task_prompt +:+ nl +:+
                   "**Improved Task Prompt**: " +:+ revise content)],
        Ok (revise content))).
Proof.
  unfold self_task_improve. split; [| split].
  - intros acts ex ->. reflexivity.
  - intros acts acts' msg ex ->. unfold mbind at 1, eff_bind at 1.
    now intros ->.
  - intros acts acts' msg content ->. unfold mbind at 1, eff_bind at 1.
    now intros ->.
Qed.

Lemma self_task_improve_session_witness :
  self_task_improve "snake" unreachable
  = ([Log "System: Prompt Engineer"], Raise (Exception "Connection error.")).
Proof.
  destruct (self_task_improve_session "snake" unreachable) as (_ & Hstep & _).
  exact (Hstep [Log "System: Prompt Engineer"] [] _ _ eq_refl eq_refl).
Defined.

End RevisionFacts.

(** ** Paths *)
Module PyPathFacts.
Import PyStr PyPath Inputs PyStrFacts.

(** [dirname] and [join] where [os.path] is least obvious. *)
Example dirname_slashes : dirname "///" = "///".
Proof. reflexivity. Qed.

Example dirname_double : dirname "/a//b" = "/a".
Proof. reflexivity. Qed.

Example dirname_bare : dirname "a" = "".
Proof. reflexivity. Qed.

Example dirname_root : dirname "/a" = "/".
Proof. reflexivity. Qed.

Example join_trailing : path_join "a/" "b" = "a/b".
Proof. reflexivity. Qed.

Example join_absolute : path_join "a" "/b" = "/b".
Proof. reflexivity. Qed.

Example join_empty : path_join "" "b" = "b".
Proof. reflexivity. Qed.

Example endswith_shorter : endswith ".py" "py" = false.
Proof. reflexivity. Qed.

Lemma startswith_sep_append (x suffix : string) :
  startswith "/" suffix = false →
  startswith "/" (x +:+ suffix) = startswith "/" x.
Proof. intros H. destruct x as [|c x]; [exact H | reflexivity]. Qed.

(** A suffix added to the last component stays at the end of the path. *)
Lemma path_join_append (d x suffix : string) :
  startswith "/" suffix = false →
  path_join d (x +:+ suffix) = path_join d x +:+ suffix.
Proof.
  intros H. unfold path_join. rewrite (startswith_sep_append _ _ H).
  destruct (startswith "/" x); [reflexivity |].
  destruct (String.eqb d "" || endswith "/" d); now rewrite !append_assoc.
Qed.

Lemma endswith_sep_cons (c x : ascii) (s : string) :
  endswith "/" (String c (String x s)) = endswith "/" (String x s).
Proof.
  unfold endswith. cbn [String.length Nat.sub drop]. now rewrite Nat.sub_0_r.
Qed.

(** Whether a path ends with a slash is decided by its non-empty tail. *)
Lemma endswith_sep_append (a : string) (x : ascii) (b : string) :
  endswith "/" (a +:+ String x b) = endswith "/" (String x b).
Proof.
  induction a as [|c a IH]; [reflexivity |].
  destruct a as [|c' a]; cbn [String.append] in *; now rewrite endswith_sep_cons.
Qed.

Lemma has_sep_append (a b : string) : has_sep (a +:+ String sep b) = true.
Proof.
  induction a as [|c a IH]; cbn; [reflexivity |]. rewrite IH. apply orb_true_r.
Qed.

Lemma dir_head_append (d name : string) :
  has_sep name = false → dir_head (d +:+ String sep name) = d +:+ String sep "".
Proof.
  intros Hname. induction d as [|c d IH]; cbn [String.append dir_head].
  - now rewrite Hname.
  - now rewrite has_sep_append, IH.
Qed.

(** A non-empty path without a slash at its end: stripping slashes leaves
    it, and it is not made of slashes. *)
Lemma no_trailing_sep (d : string) :
  d ≠ "" → endswith "/" d = false →
  rstrip_sep d = d ∧ not_all_sep d = true.
Proof.
  induction d as [|c d IH]; [congruence |]. intros _ Hend.
  destruct d as [|x d].
  - assert (Hc : Ascii.eqb c sep = false).
    { unfold endswith in Hend. cbn [String.length Nat.sub drop] in Hend.
      apply String.eqb_neq in Hend. apply Ascii.eqb_neq. intros ->.
      now apply Hend. }
    cbn. now rewrite Hc.
  - rewrite endswith_sep_cons in Hend.
    destruct (IH ltac:(discriminate) Hend) as [Hstrip Hnot].
    split.
    + cbn [rstrip_sep] in Hstrip |- *. now rewrite Hstrip.
    + cbn [not_all_sep] in Hnot |- *. rewrite Hnot. apply orb_true_r.
Qed.

Lemma rstrip_sep_tail (c : ascii) (s : string) :
  rstrip_sep (String c s) = String c s → s ≠ "" → rstrip_sep s = s.
Proof.
  cbn [rstrip_sep]. destruct (rstrip_sep s) as [|y r].
  - destruct (Ascii.eqb c sep); intros [= <-]; congruence.
  - now intros [= <-].
Qed.

Lemma rstrip_sep_append (d : string) :
  rstrip_sep d = d → d ≠ "" → rstrip_sep (d +:+ String sep "") = d.
Proof.
  induction d as [|c d IH]; [congruence |]. intros Hd _.
  destruct d as [|x d].
  - cbn in Hd |- *. destruct (Ascii.eqb c sep); [discriminate | reflexivity].
  - pose proof (rstrip_sep_tail _ _ Hd ltac:(discriminate)) as Hd'.
    change (String c (String x d) +:+ String sep "")
      with (String c (String x d +:+ String sep "")).
    cbn [rstrip_sep]. rewrite (IH Hd') by discriminate. reflexivity.
Qed.

Lemma not_all_sep_append (a b : string) :
  not_all_sep a = true → not_all_sep (a +:+ b) = true.
Proof.
  induction a as [|c a IH]; [discriminate |]. cbn.
  destruct (negb (Ascii.eqb c sep)); [reflexivity | exact IH].
Qed.

(** [dirname] undoes [join]: the directory of [d + "/" + name] is [d],
    when [d] is not empty, has no slash at its end, and [name] has none. *)
Lemma dirname_append (d name : string) :
  d ≠ "" → endswith "/" d = false → has_sep name = false →
  dirname (d +:+ String sep name) = d.
Proof.
  intros Hne Hend Hname. unfold dirname. rewrite (dir_head_append _ _ Hname).
  destruct (no_trailing_sep d Hne Hend) as [Hstrip Hnot].
  rewrite (not_all_sep_append _ _ Hnot).
  assert (Hnz : String.eqb (d +:+ String sep "") "" = false)
    by (destruct d; [congruence | reflexivity]).
  rewrite Hnz. cbn [negb andb]. now apply rstrip_sep_append.
Qed.

End PyPathFacts.

(** ** The housekeeping before the chain *)
Module HousekeepingFacts.
Import PyStr PyPath Env Chain Housekeeping Inputs Examples MoreExamples
  PyStrFacts EnvFacts PyPathFacts.

Lemma not_in_map_act (p : string) (acts : list action) :
  Remove p ∉ map Act acts.
Proof.
  induction acts as [|a acts IH]; cbn; [apply not_elem_of_nil |].
  apply not_elem_of_cons. split; [discriminate | exact IH].
Qed.

Lemma remove_in_clean_one (w : pre_world) (d filename p : string) :
  Remove p ∈ clean_one w d filename →
  p = path_join d filename ∧ isfile w p = true
  ∧ endswith ".py" filename = false ∧ endswith ".log" filename = false.
Proof.
  unfold clean_one.
  destruct (isfile w (path_join d filename)) eqn:Hf,
    (endswith ".py" filename), (endswith ".log" filename); cbn [andb negb];
    intros H; try (now apply elem_of_nil in H).
  apply elem_of_cons in H as [[= ->] | H]; [now rewrite Hf |].
  apply elem_of_cons in H as [[=] | H]. now apply elem_of_nil in H.
Qed.

(** The actions of [pre_processing]: the cleaning, then everything else,
    and there is no removal in the rest. *)
Lemma pre_processing_actions (o : Orchestrator) (w : pre_world) (session : RolePlaying) :
  ∃ cleaning rest,
    fst (snd (pre_processing o w session)) = cleaning ++ rest
    ∧ (∀ p, Remove p ∉ rest)
    ∧ (cleaning = [] ∨ cleaning = flat_map (clean_one w (warehouse_of o)) (warehouse w)).
Proof.
  unfold pre_processing.
  destruct (clear_structure _).
  - fold (warehouse_of o). fold (software_path_of o).
    exists (flat_map (clean_one w (warehouse_of o)) (warehouse w)).
    destruct (set_directory _ _ _) as [e1 [acts [[]|ex]]].
    + destruct (check_bool _).
      * destruct (self_task_improve _ _) as [acts' [revised|ex]];
          cbn [snd fst]; eexists; (split; [rewrite <- !app_assoc; reflexivity |]);
          (split; [| now right]); intros p Hp;
          repeat (apply elem_of_app in Hp as [Hp | Hp]);
          try (now apply not_in_map_act in Hp);
          repeat (apply elem_of_cons in Hp as [[=] | Hp]);
          now apply elem_of_nil in Hp.
      * cbn [snd fst]. eexists. split; [reflexivity |].
        split; [| now right]. intros p Hp.
        repeat (apply elem_of_app in Hp as [Hp | Hp]);
          try (now apply not_in_map_act in Hp);
          repeat (apply elem_of_cons in Hp as [[=] | Hp]);
          now apply elem_of_nil in Hp.
    + cbn [snd fst]. eexists. split; [reflexivity |].
      split; [| now right]. intros p Hp. now apply not_in_map_act in Hp.
  - exists [], []. split; [reflexivity |].
    split; [| now left]. intros p. apply not_elem_of_nil.
Qed.

Lemma rmtree_in_set_directory (self : ChatEnv) (d : string) (w : fs) (p : string) :
  Rmtree p ∈ fst (snd (set_directory self d w)) →
  p = d ∧ clear_structure (config self) = true ∧ path_exists w d = true.
Proof.
  unfold set_directory.
  destruct (negb _); cbn [snd fst raise]; [intros H; now apply elem_of_nil in H |].
  cbn [bind_directory env_dict directory config].
  destruct (path_exists w d) eqn:Hex, (0 <? length (listdir w d))%nat,
    (clear_structure (config self)); cbn [andb app]; intros H;
    repeat (apply elem_of_cons in H as [[=] | H]);
    try (now apply elem_of_nil in H); subst; auto.
Qed.

Lemma rmtree_not_in_clean_one (w : pre_world) (d filename p : string) :
  Act (Rmtree p) ∉ clean_one w d filename.
Proof.
  unfold clean_one. destruct (_ && _ && _); intros H;
    repeat (apply elem_of_cons in H as [[=] | H]); now apply elem_of_nil in H.
Qed.

Lemma act_in_map_act (a : action) (acts : list action) :
  Act a ∈ map Act acts → a ∈ acts.
Proof.
  induction acts as [|b acts IH]; cbn; intros H; [now apply elem_of_nil in H |].
  apply elem_of_cons in H as [[= ->] | H]; apply elem_of_cons; auto.
Qed.

(** X20. What [pre_processing] removes. Every path that it deletes with
    [os.remove] is an entry of the WareHouse directory that is a regular
    file and whose name ends neither in [.py] nor in [.log]. A directory
    tree is removed only by [set_directory]: it is the project directory,
    which existed, and [clear_structure] is on; the one other source of a
    removal is the session of the prompt engineer doing it on its own. *)
Theorem pre_processing_removes (o : Orchestrator) (w : pre_world)
    (session : RolePlaying) (p : string) :
  (Remove p ∈ fst (snd (pre_processing o w session)) →
   ∃ filename, filename ∈ warehouse w
     ∧ p = path_join (warehouse_of o) filename
     ∧ isfile w p = true
     ∧ endswith ".py" filename = false
     ∧ endswith ".log" filename = false)
  ∧ (Act (Rmtree p) ∈ fst (snd (pre_processing o w session)) →
     p = software_path_of o
     ∧ clear_structure (config (chat_env (chat_chain o))) = true
     ∧ path_exists (after_cleaning w) p = true
     ∨ Rmtree p ∈ fst (self_task_improve (task_prompt_raw o) session)).
Proof.
  split.
  - destruct (pre_processing_actions o w session)
      as (cleaning & rest & -> & Hrest & Hc).
    intros Hp. apply elem_of_app in Hp as [Hp | Hp]; [| now apply Hrest in Hp].
    destruct Hc as [-> | ->]; [now apply elem_of_nil in Hp |].
    apply list_elem_of_In, in_flat_map in Hp as (filename & Hin & Hp).
    apply list_elem_of_In in Hin, Hp.
    exists filename. split; [assumption |]. now apply remove_in_clean_one.
  - unfold pre_processing.
    destruct (clear_structure _) eqn:Hclear;
      [| intros H; now apply elem_of_nil in H].
    fold (warehouse_of o). fold (software_path_of o).
    assert (Hclean : Act (Rmtree p)
                     ∉ flat_map (clean_one w (warehouse_of o)) (warehouse w)).
    { intros H. apply list_elem_of_In, in_flat_map in H as (filename & _ & H).
      apply list_elem_of_In in H. now apply rmtree_not_in_clean_one in H. }
    pose proof (rmtree_in_set_directory (chat_env (chat_chain o))
                  (software_path_of o) (after_cleaning w) p) as Hset.
    destruct (set_directory _ _ _) as [e1 [acts [[]|ex]]]; cbn [fst snd] in Hset.
    + destruct (check_bool _).
      * destruct (self_task_improve _ _) as [acts' [revised|ex]]; cbn [snd fst];
          intros H; repeat (apply elem_of_app in H as [H | H]);
          first [ contradiction
                | apply act_in_map_act in H;
                  first [ left; destruct (Hset H) as (-> & _ & ->); now auto | right; exact H ]
                | repeat (apply elem_of_cons in H as [[=] | H]);
                  now apply elem_of_nil in H ].
      * cbn [snd fst]. intros H. repeat (apply elem_of_app in H as [H | H]);
          first [ contradiction
                | apply act_in_map_act in H; left; destruct (Hset H) as (-> & _ & ->); now auto
                | repeat (apply elem_of_cons in H as [[=] | H]);
                  now apply elem_of_nil in H ].
    + cbn [snd fst]. intros H. apply elem_of_app in H as [H | H];
        [contradiction |]. apply act_in_map_act in H. left.
      destruct (Hset H) as (-> & _ & ->); now auto.
Qed.

(** In the run of [snake], [notes.txt] is deleted; when the directory of
    the project is there already, it is the tree that is removed. *)
Lemma pre_processing_removes_witness :
  (∃ filename, filename ∈ ["old.log"; "run.py"; "notes.txt"; "Snake_Acme_2023"]
     ∧ "/opt/ChatDev/WareHouse/notes.txt" = path_join "/opt/ChatDev/WareHouse" filename
     ∧ endswith ".py" filename = false
     ∧ endswith ".log" filename = false)
  ∧ Act (Rmtree "/opt/ChatDev/WareHouse/Snake_Acme_20240101120000")
    ∈ fst (snd (pre_processing snake warehouse_taken (engineer "")))
  ∧ ("/opt/ChatDev/WareHouse/Snake_Acme_20240101120000" = software_path_of snake
     ∧ clear_structure (config (chat_env (chat_chain snake))) = true
     ∧ path_exists (after_cleaning warehouse_taken)
         "/opt/ChatDev/WareHouse/Snake_Acme_20240101120000" = true
     ∨ Rmtree "/opt/ChatDev/WareHouse/Snake_Acme_20240101120000"
       ∈ fst (self_task_improve (task_prompt_raw snake) (engineer ""))).
Proof.
  assert (Hin : Act (Rmtree "/opt/ChatDev/WareHouse/Snake_Acme_20240101120000")
                ∈ fst (snd (pre_processing snake warehouse_taken (engineer "")))).
  { vm_compute. repeat (apply elem_of_cons; first [left; reflexivity | right]). }
  split; [| split; [exact Hin |]].
  - destruct (pre_processing_removes snake warehouse0 (engineer "")
                "/opt/ChatDev/WareHouse/notes.txt") as [Hremove _].
    destruct Hremove as (filename & Hin' & Hp & _ & Hpy & Hlog).
    + vm_compute. apply elem_of_cons. now left.
    + exists filename. auto.
  - destruct (pre_processing_removes snake warehouse_taken (engineer "")
                "/opt/ChatDev/WareHouse/Snake_Acme_20240101120000") as [_ Htree].
    exact (Htree Hin).
Defined.

(** X21. With [clear_structure] off, the variable [directory] is never
    assigned: [pre_processing] raises the interpreter's error for it at
    once, and has then bound no directory, copied no file and written no
    prompt. *)
Theorem pre_processing_unbound (o : Orchestrator) (w : pre_world)
    (session : RolePlaying) :
  clear_structure (config (chat_env (chat_chain o))) = false →
  pre_processing o w session
  = (chat_env (chat_chain o), ([], Raise (Exception (unbound_local w)))).
Proof. intros H. unfold pre_processing. now rewrite H. Qed.

Lemma pre_processing_unbound_witness :
  pre_processing snake_keep warehouse0 (engineer "")
  = (chat_env (chat_chain snake_keep), ([], Raise (Exception
       "cannot access local variable 'directory' where it is not associated with a value"))).
Proof. apply pre_processing_unbound. reflexivity. Defined.

(** X22. A second [pre_processing], on an environment whose directory is
    bound: the WareHouse is cleaned once more, then the assertion of
    [set_directory] fails; nothing is copied or written and the environment
    is unchanged. *)
Theorem pre_processing_bound (o : Orchestrator) (w : pre_world)
    (session : RolePlaying) :
  clear_structure (config (chat_env (chat_chain o))) = true →
  directory (env_dict (chat_env (chat_chain o))) ≠ "" →
  pre_processing o w session
  = (chat_env (chat_chain o),
     (flat_map (clean_one w (warehouse_of o)) (warehouse w), Raise AssertionError)).
Proof.
  intros Hc Hd. unfold pre_processing. rewrite Hc.
  rewrite set_directory_bound by assumption. cbn [map]. now rewrite app_nil_r.
Qed.

Lemma pre_processing_bound_witness :
  pre_processing snake_bound warehouse0 (engineer "")
  = (env1,
     ([Remove "/opt/ChatDev/WareHouse/notes.txt";
       Act (Print "/opt/ChatDev/WareHouse/notes.txt Removed.")],
      Raise AssertionError)).
Proof. apply (pre_processing_bound snake_bound); [reflexivity | discriminate]. Defined.

(** What a run that ends well leaves behind. *)
Lemma pre_processing_ok (o : Orchestrator) (w : pre_world) (session : RolePlaying)
    (e' : ChatEnv) (acts : list io_action) :
  pre_processing o w session = (e', (acts, Ok tt)) →
  directory (env_dict e') = software_path_of o
  ∧ (if check_bool (cfg_self_improve (settings o))
     then snd (self_task_improve (task_prompt_raw o) session)
          = Ok (task_prompt (env_dict e'))
     else task_prompt (env_dict e') = task_prompt_raw o).
Proof.
  unfold pre_processing. destruct (clear_structure _); [| discriminate].
  fold (warehouse_of o). fold (software_path_of o).
  destruct (set_directory _ _ _) as [e1 [acts1 [[]|ex]]] eqn:Hset; [| discriminate].
  apply set_directory_binds in Hset as [_ Hdir].
  destruct (check_bool _).
  - destruct (self_task_improve _ _) as [acts' [revised|ex]]; [| discriminate].
    intros [= <- _]. now cbn.
  - intros [= <- _]. now cbn.
Qed.

(** X23. After a [pre_processing] that ended well, the project directory
    is bound to the path under the WareHouse named after project,
    organisation and start time, and the task prompt of the environment is
    the raw prompt, or, when [self_improve] is a spelling of [true], what
    [self_task_improve] returned for it. *)
Theorem pre_processing_result (o : Orchestrator) (w : pre_world)
    (session : RolePlaying) (e' : ChatEnv) (acts : list io_action) :
  pre_processing o w session = (e', (acts, Ok tt)) →
  directory (env_dict e')
  = path_join (path_join (dirname (dirname (module_file o))) "WareHouse")
      (project_name o +:+ "_" +:+ org_name o +:+ "_" +:+ start_time o)
  ∧ codes_directory e' = Some (directory (env_dict e'))
  ∧ (check_bool (cfg_self_improve (settings o)) = false →
     task_prompt (env_dict e') = task_prompt_raw o)
  ∧ (check_bool (cfg_self_improve (settings o)) = true →
     snd (self_task_improve (task_prompt_raw o) session)
     = Ok (task_prompt (env_dict e'))).
Proof.
  intros Hrun. destruct (pre_processing_ok _ _ _ _ _ Hrun) as [Hdir Htask].
  split; [exact Hdir |]. split.
  - revert Hrun. unfold pre_processing.
    destruct (clear_structure _); [| discriminate].
    destruct (set_directory _ _ _) as [e1 [acts1 [[]|ex]]] eqn:Hset; [| discriminate].
    assert (Hc : codes_directory e1 = Some (directory (env_dict e1))).
    { revert Hset. unfold set_directory. destruct (negb _); [discriminate |].
      now intros [= <- _]. }
    destruct (check_bool _).
    + destruct (self_task_improve _ _) as [acts' [revised|ex]]; [| discriminate].
      now intros [= <- _].
    + now intros [= <- _].
  - destruct (check_bool _); split; intros; congruence.
Qed.

Lemma pre_processing_result_witness :
  directory (env_dict (fst (pre_processing snake warehouse0 (engineer ""))))
  = "/opt/ChatDev/WareHouse/Snake_Acme_20240101120000"
  ∧ task_prompt (env_dict (fst (pre_processing snake warehouse0 (engineer ""))))
    = "Build A Snake Game".
Proof.
  destruct (pre_processing snake warehouse0 (engineer "")) as [e' [acts r]] eqn:Hrun.
  assert (Hr : r = Ok tt) by (now vm_compute in Hrun; injection Hrun as _ _ <-).
  subst r.
  destruct (pre_processing_result snake warehouse0 (engineer "") e' acts Hrun)
    as (Hdir & _ & Hraw & _).
  cbn [fst]. split; [rewrite Hdir; reflexivity | rewrite Hraw; reflexivity].
Defined.

(** X24. The log of a run lies beside its project directory and carries
    its name: for a chain set up by [__init__], whose log path comes from
    [get_logfilepath], the directory that a successful [pre_processing]
    binds, followed by [.log], is the path of the log. *)
Theorem log_beside_project (cfg : ChatChainConfig)
    (instances : gmap string SimplePhase) (composed : gmap string module_attr)
    (cpath ppath rpath task project org file now : string)
    (w : pre_world) (session : RolePlaying) (e' : ChatEnv)
    (acts : list io_action) :
  let o := orchestrate cfg instances composed cpath ppath rpath task project org
             file now in
  pre_processing o w session = (e', (acts, Ok tt)) →
  log_filepath o = directory (env_dict e') +:+ ".log".
Proof.
  intros o Hrun. destruct (pre_processing_ok _ _ _ _ _ Hrun) as [-> _].
  unfold software_path_of, warehouse_of, o, orchestrate, get_logfilepath.
  cbn [log_filepath module_file project_name org_name start_time].
  now rewrite path_join_append.
Qed.

Lemma log_beside_project_witness :
  log_filepath snake
  = directory (env_dict (fst (pre_processing snake warehouse0 (engineer ""))))
    +:+ ".log".
Proof.
  destruct (pre_processing snake warehouse0 (engineer "")) as [e' [acts r]] eqn:Hrun.
  assert (Hr : r = Ok tt) by (now vm_compute in Hrun; injection Hrun as _ _ <-).
  subst r. cbn [fst].
  exact (log_beside_project config0 {[ "Draft" := draft ]} ∅ _ _ _ _ _ _ _ _
           warehouse0 (engineer "") e' acts Hrun).
Defined.

(** X25. For the module file [root/chatdev/chat_chain.py], with [root] not
    empty and without a slash at its end, and a project name that does not
    start with a slash, the log of the run is
    [root/WareHouse/project_org_time.log]. *)
Theorem get_logfilepath_layout (root project org now : string) :
  root ≠ "" →
  endswith "/" root = false →
  startswith "/" project = false →
  get_logfilepath (root +:+ "/chatdev/chat_chain.py") project org now
  = (now, root +:+ "/WareHouse/" +:+ project +:+ "_" +:+ org +:+ "_"
          +:+ now +:+ ".log").
Proof.
  intros Hne Hend Hproj. unfold get_logfilepath. f_equal.
  assert (Hfile : dirname (root +:+ "/chatdev/chat_chain.py") = root +:+ "/chatdev").
  { change (root +:+ "/chatdev/chat_chain.py")
      with (root +:+ "/chatdev" +:+ String sep "chat_chain.py").
    rewrite <- append_assoc. apply dirname_append; [| | reflexivity].
    - destruct root; [congruence | discriminate].
    - now rewrite endswith_sep_append. }
  rewrite Hfile.
  change (root +:+ "/chatdev") with (root +:+ String sep "chatdev").
  rewrite (dirname_append root "chatdev" Hne Hend eq_refl).
  unfold path_join at 2. cbn [startswith Ascii.eqb Bool.eqb andb].
  apply String.eqb_neq in Hne. rewrite Hne, Hend. cbn [orb].
  unfold path_join, str_join.
  rewrite !append_assoc, startswith_sep_append by reflexivity.
  rewrite Hproj.
  change (root +:+ "/" +:+ "WareHouse") with (root +:+ String "/" "WareHouse").
  rewrite endswith_sep_append.
  destruct (String.eqb (root +:+ String "/" "WareHouse") "") eqn:E.
  - apply String.eqb_eq in E. destruct root; discriminate.
  - cbn. rewrite ?append_assoc. reflexivity.
Qed.

Lemma get_logfilepath_layout_witness :
  get_logfilepath "/opt/ChatDev/chatdev/chat_chain.py" "Snake" "Acme" "20240101120000"
  = ("20240101120000", "/opt/ChatDev/WareHouse/Snake_Acme_20240101120000.log").
Proof.
  apply (get_logfilepath_layout "/opt/ChatDev" "Snake" "Acme" "20240101120000");
    first [reflexivity | discriminate].
Defined.

End HousekeepingFacts.

(** ** The images proposed in a message *)
Module ImagesFacts.
Import PyStr PyPath Housekeeping Images Inputs Examples MoreExamples PyStrFacts.

(** The two patterns on texts where the backtracking shows: the dot takes
    any character, a line feed too, and the word before it gives back what
    the rest of the pattern needs. *)
Example scan_names :
  scan name_here 0 ("a.png apngpng pngpng xpng a" +:+ nl +:+ "png")
  = ["a.png"; "apngpng png"; "a" +:+ nl +:+ "png"].
Proof. reflexivity. Qed.

Example scan_described :
  scan described_here 0
    ("a.png: x" +:+ nl +:+ "b_png:y" +:+ nl +:+ nl +:+ "rest cpng.png:z")
  = [("a.png", " x"); ("b_png", "y")].
Proof. reflexivity. Qed.

(** *** Where nothing is named *)

Lemma contains_drop (x s : string) (k : nat) :
  contains x (drop k s) = true → contains x s = true.
Proof.
  revert k; induction s as [|c s IH]; intros [|k]; cbn [drop]; try trivial.
  intros H. rewrite contains_cons, (IH _ H). apply orb_true_r.
Qed.

Lemma contains_startswith_tail (x : string) (c : ascii) (rest : string) :
  startswith x rest = true → contains x (String c rest) = true.
Proof.
  intros H. rewrite contains_cons.
  destruct rest as [|y rest]; cbn [contains]; rewrite H, ?orb_true_r; reflexivity.
Qed.

Lemma longest_found (f : nat → bool) (n k : nat) :
  longest f n = Some k → (1 ≤ k ≤ n)%nat ∧ f k = true.
Proof.
  induction n as [|n IH]; [discriminate |]. cbn [longest].
  destruct (f (S n)) eqn:Hf.
  - intros [= <-]. split; [lia | exact Hf].
  - intros H. destruct (IH H). split; [lia | assumption].
Qed.

Lemma dot_png_contains (s : string) (k : nat) :
  dot_png s k = true → contains "png" s = true.
Proof.
  unfold dot_png. destruct (drop k s) as [|c rest] eqn:E; [discriminate |].
  intros H. apply (contains_drop _ _ k). rewrite E.
  now apply contains_startswith_tail.
Qed.

Lemma startswith_shorter (a b s : string) :
  startswith (a +:+ b) s = true → startswith a s = true.
Proof.
  revert s; induction a as [|x a IH]; intros s; [reflexivity |].
  destruct s as [|c s]; cbn [String.append startswith]; [trivial |].
  intros H. apply andb_true_iff in H as [-> H]. now apply IH in H.
Qed.

Lemma dot_png_described_weaker (s : string) (k : nat) :
  dot_png_described s k = true → dot_png s k = true.
Proof.
  unfold dot_png_described, dot_png. destruct (drop k s) as [|c rest]; [trivial |].
  intros H. apply andb_true_iff in H as [H _].
  now apply (startswith_shorter "png" ":").
Qed.

Lemma name_here_contains (s : string) (r : string * nat) :
  name_here s = Some r → contains "png" s = true.
Proof.
  unfold name_here. destruct (longest _ _) as [k|] eqn:Hk; [| discriminate].
  intros _. apply longest_found in Hk as [_ Hk]. eapply dot_png_contains, Hk.
Qed.

Lemma described_here_contains (s : string) (r : (string * string) * nat) :
  described_here s = Some r → contains "png" s = true.
Proof.
  unfold described_here. destruct (longest _ _) as [k|] eqn:Hk; [| discriminate].
  intros _. apply longest_found in Hk as [_ Hk].
  eapply dot_png_contains, dot_png_described_weaker, Hk.
Qed.

(** No match anywhere when no suffix of the text can match. *)
Lemma scan_nothing {A : Type} (here : string → option (A * nat)) (x s : string) :
  (∀ t r, here t = Some r → contains x t = true) →
  contains x s = false → scan here 0 s = [].
Proof.
  intros Hhere. induction s as [|c s IH]; [reflexivity |].
  intros H. cbn [scan].
  destruct (here (String c s)) as [[g len]|] eqn:E.
  - apply Hhere in E. congruence.
  - apply IH. rewrite contains_cons in H. now apply orb_false_iff in H as [_ H].
Qed.

(** X26. A message that nowhere holds the letters [png] proposes no
    image: the result is the empty dictionary, and nothing is printed,
    asked of the image service, fetched or written. *)
Theorem no_image_proposed (self : ChatEnv) (messages : string) (w : image_world) :
  contains "png" messages = false →
  get_proposed_images_from_message self messages w = ([], Ok []).
Proof.
  intros H. unfold get_proposed_images_from_message, described_images, bare_images.
  rewrite (scan_nothing described_here "png" messages described_here_contains H).
  rewrite (scan_nothing name_here "png" messages name_here_contains H).
  reflexivity.
Qed.

Lemma no_image_proposed_witness :
  get_proposed_images_from_message env1 "The game needs no pictures." service
  = ([], Ok []).
Proof. apply no_image_proposed. reflexivity. Defined.

(** *** The shape of a file name *)

Lemma take_add (k m : nat) (s : string) :
  take (k + m) s = take k s +:+ take m (drop k s).
Proof.
  revert s; induction k as [|k IH]; intros s; [now destruct s |].
  destruct s as [|c s]; cbn [Nat.add take drop String.append].
  - now destruct m.
  - now rewrite IH.
Qed.

Lemma take_word_run (s : string) (k : nat) :
  (k ≤ word_run s)%nat →
  all_chars is_word (take k s) = true ∧ String.length (take k s) = k.
Proof.
  revert k; induction s as [|c s IH]; intros [|k] Hk; cbn in *; try (split; [reflexivity | lia]).
  destruct (is_word c) eqn:Hc; [| lia].
  destruct (IH k ltac:(lia)) as [-> ->]. now split.
Qed.

Lemma startswith_take (p s : string) :
  startswith p s = true → take (String.length p) s = p.
Proof.
  revert s; induction p as [|x p IH]; intros s; [now destruct s |].
  destruct s as [|c s]; cbn [startswith take String.length]; [discriminate |].
  intros H. apply andb_true_iff in H as [Hx H].
  apply Ascii.eqb_eq in Hx as ->. now rewrite (IH _ H).
Qed.

(** Group 1 of either pattern: some word characters, one character of any
    kind, then [png]. *)
Lemma name_shape (s : string) (k : nat) :
  (1 ≤ k ≤ word_run s)%nat → dot_png s k = true →
  ∃ name c, take (k + 4) s = name +:+ String c "png"
            ∧ name ≠ "" ∧ all_chars is_word name = true.
Proof.
  intros Hk Hdot. unfold dot_png in Hdot.
  destruct (drop k s) as [|c rest] eqn:E; [discriminate |].
  destruct (take_word_run s k ltac:(lia)) as [Hword Hlen].
  exists (take k s), c. rewrite take_add, E. split; [| split].
  - change (take 4 (String c rest)) with (String c (take (String.length "png") rest)).
    now rewrite (startswith_take _ _ Hdot).
  - intros Hempty. rewrite Hempty in Hlen. cbn in Hlen. lia.
  - exact Hword.
Qed.

Lemma name_here_shape (s g : string) (len : nat) :
  name_here s = Some (g, len) →
  ∃ name c, g = name +:+ String c "png" ∧ name ≠ "" ∧ all_chars is_word name = true.
Proof.
  unfold name_here. destruct (longest _ _) as [k|] eqn:Hk; [| discriminate].
  intros [= <- _]. apply longest_found in Hk as [Hk Hdot]. now apply name_shape.
Qed.

Lemma described_here_shape (s g d : string) (len : nat) :
  described_here s = Some ((g, d), len) →
  ∃ name c, g = name +:+ String c "png" ∧ name ≠ "" ∧ all_chars is_word name = true.
Proof.
  unfold described_here. destruct (longest _ _) as [k|] eqn:Hk; [| discriminate].
  destruct (until_nl _); [| discriminate].
  intros [= <- _ _]. apply longest_found in Hk as [Hk Hdot].
  apply name_shape; [assumption | now apply dot_png_described_weaker].
Qed.

Lemma scan_groups {A : Type} (here : string → option (A * nat)) (P : A → Prop)
    (s : string) (skip : nat) (g : A) :
  (∀ t g' len, here t = Some (g', len) → P g') →
  g ∈ scan here skip s → P g.
Proof.
  intros Hhere. revert skip; induction s as [|c s IH]; intros skip; cbn [scan].
  - intros H. now apply elem_of_nil in H.
  - destruct skip as [|k]; [| apply IH].
    destruct (here (String c s)) as [[g' len]|] eqn:E; [| apply IH].
    intros [-> | H]%elem_of_cons; [eapply Hhere, E | eapply IH, H].
Qed.

(** *** [strip] leaves such a name alone *)

Lemma is_word_not_space (c : ascii) : is_word c = true → is_space c = false.
Proof. destruct c as [[] [] [] [] [] [] [] []]; vm_compute; congruence. Qed.

Lemma rstrip_append (a b : string) :
  rstrip b ≠ "" → rstrip (a +:+ b) = a +:+ rstrip b.
Proof.
  intros Hb. induction a as [|c a IH]; [reflexivity |].
  cbn [String.append rstrip]. rewrite IH.
  destruct (a +:+ rstrip b) eqn:E; [| reflexivity].
  destruct a; [contradiction | discriminate].
Qed.

Lemma strip_name (name : string) (c : ascii) :
  name ≠ "" → all_chars is_word name = true →
  strip (name +:+ String c "png") = name +:+ String c "png".
Proof.
  intros Hne Hword. unfold strip.
  destruct name as [|x name]; [congruence |].
  cbn [all_chars] in Hword. apply andb_true_iff in Hword as [Hx _].
  cbn [String.append lstrip]. rewrite (is_word_not_space _ Hx).
  replace (name +:+ String c "png") with ((name +:+ String c "") +:+ "png")
    by (now rewrite append_assoc).
  change (String x ((name +:+ String c "") +:+ "png"))
    with (String x (name +:+ String c "") +:+ "png").
  rewrite rstrip_append; [reflexivity | discriminate].
Qed.

(** *** Keys of the dictionary *)

Lemma dict_set_keys (d : list (string * string)) (k v k' v' : string) :
  (k', v') ∈ dict_set d k v → k' = k ∨ ∃ v0, (k', v0) ∈ d.
Proof.
  induction d as [|[k0 v0] d IH]; cbn [dict_set].
  - intros [[= -> ->] | H]%elem_of_cons; [now left | now apply elem_of_nil in H].
  - destruct (String.eqb k0 k) eqn:E.
    + intros [[= -> ->] | H]%elem_of_cons.
      * right. exists v0. apply elem_of_cons. now left.
      * right. exists v'. apply elem_of_cons. now right.
    + intros [[= -> ->] | H]%elem_of_cons.
      * right. exists v0. apply elem_of_cons. now left.
      * destruct (IH H) as [-> | [v1 H1]]; [now left |].
        right. exists v1. apply elem_of_cons. now right.
Qed.

Lemma described_images_keys (messages f d : string) :
  (f, d) ∈ described_images messages → image_name f.
Proof.
  unfold described_images.
  assert (Hgen : ∀ groups acc,
            (∀ g, g ∈ groups → image_name (fst g)) →
            (∀ f d, (f, d) ∈ acc → image_name f) →
            ∀ f d, (f, d) ∈ fold_left
                     (λ images g, dict_set images (strip (fst g)) (strip (snd g)))
                     groups acc → image_name f).
  { induction groups as [|g groups IH]; intros acc Hg Hacc f' d'; [apply Hacc |].
    cbn [fold_left]. apply IH.
    - intros g' Hg'. apply Hg. apply elem_of_cons. now right.
    - intros f0 d0 Hin. apply dict_set_keys in Hin as [-> | [v0 Hin]].
      + destruct (Hg g ltac:(apply elem_of_cons; now left)) as (name & c & Heq & Hne & Hw).
        rewrite Heq, strip_name by assumption. now exists name, c.
      + eapply Hacc, Hin. }
  apply Hgen.
  - intros g Hin.
    apply (scan_groups described_here (λ g, image_name (fst g)) messages 0 g);
      [| exact Hin].
    intros t [g1' g2'] len Ht. eapply described_here_shape, Ht.
  - intros f0 d0 H. now apply elem_of_nil in H.
Qed.

Lemma bare_images_keys (messages f d : string) :
  (f, d) ∈ fst (bare_images messages) → image_name f.
Proof.
  unfold bare_images.
  assert (Hgen : ∀ groups acc,
            (∀ g, g ∈ groups → image_name g) →
            (∀ f d, (f, d) ∈ fst acc → image_name f) →
            ∀ f d, (f, d) ∈ fst (fold_left
                     (λ '(images, printed) g,
                        let filename := strip g in
                        let desc := description_of filename in
                        (dict_set images filename desc,
                         printed ++ [Act (Print (filename +:+ ": " +:+ desc))]))
                     groups acc) → image_name f).
  { induction groups as [|g groups IH]; intros [acc pr] Hg Hacc f' d'; [apply Hacc |].
    cbn [fold_left]. apply IH.
    - intros g' Hg'. apply Hg. apply elem_of_cons. now right.
    - cbn [fst]. intros f0 d0 Hin. apply dict_set_keys in Hin as [-> | [v0 Hin]].
      + destruct (Hg g ltac:(apply elem_of_cons; now left)) as (name & c & Heq & Hne & Hw).
        rewrite Heq, strip_name by assumption. now exists name, c.
      + eapply Hacc, Hin. }
  apply Hgen.
  - intros g Hin.
    apply (scan_groups name_here image_name messages 0 _); [| exact Hin].
    intros t g' len Ht. eapply name_here_shape, Ht.
  - intros f0 d0 H. now apply elem_of_nil in H.
Qed.

(** X27. Every file name in the dictionary that
    [get_proposed_images_from_message] returns is made of at least one word
    character, then one character of any kind, then [png]: the dot of the
    pattern is not a literal dot, and the name never starts with a slash or
    holds a blank before its last four characters. *)
Theorem proposed_image_names (self : ChatEnv) (messages : string) (w : image_world)
    (acts : list io_action) (images : list (string * string)) (f d : string) :
  get_proposed_images_from_message self messages w = (acts, Ok images) →
  (f, d) ∈ images →
  ∃ name c, f = name +:+ String c "png" ∧ name ≠ "" ∧ all_chars is_word name = true.
Proof.
  unfold get_proposed_images_from_message.
  destruct (length (described_images messages) =? 0)%nat.
  - pose proof (bare_images_keys messages) as Hkeys.
    destruct (bare_images messages) as [imgs printed]. cbn [fst] in Hkeys.
    destruct (fetch_all _ _ _) as [a [[]|ex]]; [| discriminate].
    intros [= _ <-]. apply Hkeys.
  - destruct (fetch_all _ _ _) as [a [[]|ex]]; [| discriminate].
    intros [= _ <-]. apply described_images_keys.
Qed.

Lemma proposed_image_names_witness :
  ∃ name c, "snake_head.png" = name +:+ String c "png"
            ∧ name ≠ "" ∧ all_chars is_word name = true.
Proof.
  apply (proposed_image_names env1 two_images service
           [Act (Print "snake_head.png: A green snake head");
            CreateImage "A green snake head";
            HttpGet "https://images.example/A green snake head";
            WriteFile "/w/proj/snake_head.png"
                      "PNG from https://images.example/A green snake head";
            Act (Print "/w/proj/snake_head.png Downloaded")]
           [("logo.png", "The logo of the game");
            ("snake_head.png", "A green snake head")]
           "snake_head.png" "A green snake head").
  - reflexivity.
  - apply elem_of_cons. right. apply elem_of_cons. now left.
Defined.

(** *** What is written *)

Lemma fetch_one_writes (w : image_world) (d : string) (entry : string * string)
    (p content : string) :
  WriteFile p content ∈ fst (fetch_one w d entry) →
  on_disk w p = false ∧ p = path_join d (fst entry).
Proof.
  unfold fetch_one. destruct entry as [filename desc]. cbn [fst].
  destruct (on_disk w (path_join d filename)) eqn:Hdisk; cbn [negb fst].
  - intros H. now apply elem_of_nil in H.
  - intros H.
    destruct (create_image w _) as [url|ex].
    + destruct (http_get w url) as [c|ex]; cbn [fst] in H.
      * repeat (apply elem_of_app in H as [H | H] || apply elem_of_cons in H as [H | H]);
          try discriminate H; try (now apply elem_of_nil in H).
        -- destruct (on_disk_then w _);
             [apply elem_of_cons in H as [H | H]; [discriminate H |] |];
             now apply elem_of_nil in H.
        -- injection H as -> _. now split.
      * repeat (apply elem_of_app in H as [H | H] || apply elem_of_cons in H as [H | H]);
          try discriminate H; now apply elem_of_nil in H.
    + cbn [fst] in H.
      repeat (apply elem_of_cons in H as [H | H]); try discriminate H;
        now apply elem_of_nil in H.
Qed.

Lemma fetch_all_writes (w : image_world) (d : string)
    (entries : list (string * string)) (p content : string) :
  WriteFile p content ∈ fst (fetch_all w d entries) →
  on_disk w p = false ∧ ∃ entry, entry ∈ entries ∧ p = path_join d (fst entry).
Proof.
  induction entries as [|entry rest IH]; cbn [fetch_all].
  - intros H. now apply elem_of_nil in H.
  - pose proof (fetch_one_writes w d entry p content) as Hone.
    destruct (fetch_one w d entry) as [acts [[]|ex]]; cbn [fst] in Hone.
    + destruct (fetch_all w d rest) as [acts' r]. cbn [fst] in IH |- *.
      intros [H | H]%elem_of_app.
      * destruct (Hone H) as [Hd ->]. split; [assumption |].
        exists entry. split; [apply elem_of_cons; now left | reflexivity].
      * destruct (IH H) as (Hd & e & He & ->). split; [assumption |].
        exists e. split; [apply elem_of_cons; now right | reflexivity].
    + cbn [fst]. intros H. destruct (Hone H) as [Hd ->]. split; [assumption |].
      exists entry. split; [apply elem_of_cons; now left | reflexivity].
Qed.

Lemma bare_images_printed (messages : string) (a : io_action) :
  a ∈ snd (bare_images messages) → ∃ line, a = Act (Print line).
Proof.
  unfold bare_images.
  assert (Hgen : ∀ groups acc,
            (∀ a, a ∈ snd acc → ∃ line, a = Act (Print line)) →
            ∀ a, a ∈ snd (fold_left
                     (λ '(images, printed) g,
                        let filename := strip g in
                        let desc := description_of filename in
                        (dict_set images filename desc,
                         printed ++ [Act (Print (filename +:+ ": " +:+ desc))]))
                     groups acc) → ∃ line, a = Act (Print line)).
  { induction groups as [|g groups IH]; intros [acc pr] Hacc a'; [apply Hacc |].
    cbn [fold_left]. apply IH. cbn [snd]. intros a0 [H | H]%elem_of_app.
    - now apply Hacc.
    - apply elem_of_cons in H as [-> | H]; [eauto | now apply elem_of_nil in H]. }
  apply Hgen. intros a0 H. now apply elem_of_nil in H.
Qed.

(** X28. [get_proposed_images_from_message] writes an image only where
    none was: every file that it writes is in the project directory, under
    a name of the dictionary, at a path that did not exist when the loop
    looked. An image that is on disk is not asked for again. *)
Theorem proposed_images_written (self : ChatEnv) (messages : string)
    (w : image_world) (p content : string) :
  WriteFile p content ∈ fst (get_proposed_images_from_message self messages w) →
  on_disk w p = false
  ∧ ∃ f, p = path_join (directory (env_dict self)) f
         ∧ ∃ name c, f = name +:+ String c "png"
                     ∧ name ≠ "" ∧ all_chars is_word name = true.
Proof.
  unfold get_proposed_images_from_message.
  set (d := directory (env_dict self)).
  destruct (length (described_images messages) =? 0)%nat.
  - pose proof (bare_images_keys messages) as Hkeys.
    pose proof (bare_images_printed messages) as Hprinted.
    destruct (bare_images messages) as [imgs printed]. cbn [fst snd] in *.
    pose proof (fetch_all_writes w d imgs p content) as Hall.
    destruct (fetch_all w d imgs) as [a [[]|ex]]; cbn [fst] in *;
      (intros [H | H]%elem_of_app;
         [apply Hprinted in H as [line [=]] |]);
      destruct (Hall H) as (Hd & [f desc] & Hin & ->);
      (split; [assumption |]); exists f; (split; [reflexivity |]);
      eapply Hkeys, Hin.
  - pose proof (fetch_all_writes w d (described_images messages) p content) as Hall.
    destruct (fetch_all w d _) as [a [[]|ex]]; cbn [fst app] in *; intros H;
      destruct (Hall H) as (Hd & [f desc] & Hin & ->);
      (split; [assumption |]); exists f; (split; [reflexivity |]);
      eapply described_images_keys, Hin.
Qed.

(** The logo is on disk: only the snake head is asked for and written. *)
Lemma proposed_images_written_witness :
  get_proposed_images_from_message env1 two_images service
  = ([Act (Print "snake_head.png: A green snake head");
      CreateImage "A green snake head";
      HttpGet "https://images.example/A green snake head";
      WriteFile "/w/proj/snake_head.png"
                "PNG from https://images.example/A green snake head";
      Act (Print "/w/proj/snake_head.png Downloaded")],
     Ok [("logo.png", "The logo of the game");
         ("snake_head.png", "A green snake head")])
  ∧ on_disk service "/w/proj/snake_head.png" = false.
Proof.
  split; [reflexivity |].
  apply (proposed_images_written env1 two_images service "/w/proj/snake_head.png"
           "PNG from https://images.example/A green snake head").
  vm_compute. do 3 (apply elem_of_cons; right). apply elem_of_cons. now left.
Defined.

End ImagesFacts.
